(** * The HLS relay: provider resolver, address rewriter, manifest rewriter

    A shallow embedding of the three revisions of the relay kept in the
    repository:

    - [ServerJs]: [src/server.js];
    - [Relay]: the first file of [src/unnamed/part_000] (adds [replaceDomain]
      and resolves a relative stream URL against the instance);
    - [Legacy]: the second file of [src/unnamed/part_000] (no [hlsUrl]
      fallback).

    [rewriteHlsManifest] is the same text in all three, [replaceDomain]
    exists in [Relay] only, and [getHlsUrlFromInvidious] differs in the
    request header, in the fallback to [hlsUrl] and in the resolution of a
    relative URL, which the embedding makes explicit by a [revision]
    argument.

    What the program takes from its platform (the JavaScript string methods,
    Node's [url.resolve], the WHATWG [URL] class, [fetch]) is not code of
    the repository.  The string methods are written out; the two URL
    libraries are arguments of the embedded functions, so that the general
    theorems hold for every implementation, and a reference model of each is
    given to evaluate the functions on concrete inputs; [fetch] is an oracle
    for the network. *)

From Stdlib Require Import String Ascii List ZArith NArith Bool Lia DecimalString.
Import ListNotations.
Open Scope string_scope.
Open Scope bool_scope.

(** ** JavaScript strings

    A JavaScript string is a sequence of UTF-16 code units; the embedding
    keeps the code units below 256, one [ascii] each. *)

Module Js.

Definition LF : ascii := "010"%char.

(** [s.startsWith(p)] *)
Fixpoint startsWith (s p : string) {struct p} : bool :=
  match p with
  | EmptyString => true
  | String a p' =>
      match s with
      | String b s' => Ascii.eqb a b && startsWith s' p'
      | EmptyString => false
      end
  end.

Arguments startsWith s p : simpl never.

(** The code units [String.prototype.trim] removes (WhiteSpace and
    LineTerminator), among those below 256: TAB, LF, VT, FF, CR, SP, NBSP. *)
Definition isWhiteSpace (c : ascii) : bool :=
  existsb (N.eqb (N_of_ascii c)) [9; 10; 11; 12; 13; 32; 160]%N.

Fixpoint trimStart (s : string) : string :=
  match s with
  | String c s' => if isWhiteSpace c then trimStart s' else s
  | EmptyString => EmptyString
  end.

Fixpoint trimEnd (s : string) : string :=
  match s with
  | String c s' =>
      match trimEnd s' with
      | EmptyString => if isWhiteSpace c then EmptyString else String c EmptyString
      | t => String c t
      end
  | EmptyString => EmptyString
  end.

(** [s.trim()] *)
Definition trim (s : string) : string := trimEnd (trimStart s).

(** Truthiness of a string: every string but the empty one. *)
Definition truthy_string (s : string) : bool :=
  match s with EmptyString => false | _ => true end.

(** [s.split('\n')]: never empty, [""] for the empty string. *)
Fixpoint split (sep : ascii) (s : string) : list string :=
  match s with
  | EmptyString => [EmptyString]
  | String c s' =>
      if Ascii.eqb c sep then EmptyString :: split sep s'
      else match split sep s' with
           | l :: ls => String c l :: ls
           | [] => [String c EmptyString]
           end
  end.

(** [a.join('\n')] *)
Fixpoint join (sep : ascii) (ls : list string) : string :=
  match ls with
  | [] => EmptyString
  | [l] => l
  | l :: ls' => l ++ String sep (join sep ls')
  end.

(** [s.lastIndexOf(c)] for a one-character [c]: -1 when [c] does not occur. *)
Fixpoint lastIndexOf (c : ascii) (s : string) : Z :=
  match s with
  | EmptyString => (-1)%Z
  | String a s' =>
      let i := lastIndexOf c s' in
      if (0 <=? i)%Z then (i + 1)%Z
      else if Ascii.eqb a c then 0%Z else (-1)%Z
  end.

(** [s.substring(0, n)]: a negative [n] counts as 0, one past the end as the
    length. *)
Definition substring0 (n : Z) (s : string) : string :=
  String.substring 0 (Z.to_nat n) s.

(** [s.includes(sub)] *)
Fixpoint includes (s sub : string) : bool :=
  startsWith s sub
  || match s with
     | EmptyString => false
     | String _ s' => includes s' sub
     end.

Definition lowerChar (c : ascii) : ascii :=
  let n := N_of_ascii c in
  if ((65 <=? n) && (n <=? 90)
      || (192 <=? n) && (n <=? 222) && negb (n =? 215))%N
  then ascii_of_N (n + 32) else c.

(** [s.toLowerCase()] *)
Fixpoint toLowerCase (s : string) : string :=
  match s with
  | EmptyString => EmptyString
  | String c s' => String (lowerChar c) (toLowerCase s')
  end.

Fixpoint drop (n : nat) (s : string) : string :=
  match n, s with
  | S n', String _ s' => drop n' s'
  | _, _ => s
  end.

(** [s.replace(/https?:\/\//, '')]: the leftmost match of the pattern is
    removed, and only that one. *)
Fixpoint replace_scheme (s : string) : string :=
  if startsWith s "https://" then drop 8 s
  else if startsWith s "http://" then drop 7 s
  else match s with
       | EmptyString => EmptyString
       | String c s' => String c (replace_scheme s')
       end.

(** No line feed in [s]. *)
Fixpoint noLF (s : string) : bool :=
  match s with
  | EmptyString => true
  | String c s' => negb (Ascii.eqb c LF) && noLF s'
  end.

End Js.

(** ** The manifest rewriter ([rewriteHlsManifest], the same in the three
    revisions)

    [url_resolve base ref] stands for Node's [url.resolve(base, ref)]:
    [Some] of the resolved URL, or [None] when the call throws, which the
    source's [try]/[catch] turns into the unchanged line. *)

Section ManifestRewriter.

Variable url_resolve : string -> string -> option string.

(** The arrow function given to [map]. *)
Definition rewriteLine (base line : string) : string :=
  if Js.truthy_string (Js.trim line) && negb (Js.startsWith line "#") then
    if Js.startsWith line "http://" || Js.startsWith line "https://"
       || Js.startsWith line "//"
    then line
    else match url_resolve base (Js.trim line) with
         | Some resolved => resolved
         | None => line
         end
  else line.

Definition manifestBase (baseUrl : string) : string :=
  Js.substring0 (Js.lastIndexOf "/" baseUrl + 1) baseUrl.

Definition rewriteHlsManifest (manifestContent baseUrl : string) : string :=
  let base := manifestBase baseUrl in
  Js.join Js.LF (map (rewriteLine base) (Js.split Js.LF manifestContent)).

End ManifestRewriter.

(** The number of lines of a text, as [split('\n')] counts them. *)
Definition lineCount (s : string) : nat := List.length (Js.split Js.LF s).

(** Lines the rewriter leaves alone whatever the resolver does: blank lines,
    directives, and references that are already absolute. *)
Definition passesThrough (line : string) : bool :=
  negb (Js.truthy_string (Js.trim line))
  || Js.startsWith line "#"
  || Js.startsWith line "http://" || Js.startsWith line "https://"
  || Js.startsWith line "//".


(** ** Node's legacy URL library: a reference model of [url.resolve]

    [url.resolve(from, to)] is [urlParse(from, false, true)
    .resolveObject(urlParse(to, false, true)).format()] in Node's [lib/url.js].
    The model follows that file step by step: the parser (trimming,
    backslashes, protocol, slashes, userinfo, host, port, escaping, search,
    hash), [resolveObject] with its dot-segment loop, and [format].  Left
    out: IDNA conversion of a non-ASCII host name, bracketed IPv6 hosts,
    percent-decoding of the userinfo, the host name length limit, and what
    newer Node versions add (tabs and newlines removed from the authority,
    errors thrown at an invalid port or host).  The host name is checked
    with the older character test (letters, digits, dot, hyphen, plus,
    underscore and the codes above 127), which ends the host at any other
    character; newer Node versions keep some of these characters, the
    tilde among them, and throw on others, the opening bracket among them,
    so the model is not to be relied on for a host that holds one.  The
    model never throws.  It serves to evaluate the relay on concrete
    inputs, whose hosts are made of letters, digits, dots and hyphens: the
    statements below that hold for all inputs hold for every implementation
    of [url.resolve], and only the examples and counterexamples are
    evaluated with this one. *)

Module NodeUrl.

Record Url : Type := mkUrl {
  protocol : option string;   (* lower case, with its colon *)
  slashes : bool;
  auth : option string;
  host : option string;       (* hostname and port *)
  hostname : option string;
  port : option string;
  pathname : option string;
  search : option string;     (* with its question mark *)
  hash : option string        (* with its hash sign *)
}.

Definition empty : Url :=
  mkUrl None false None None None None None None None.

(** Truthiness of a property that holds a string, [null] or [undefined]. *)
Definition truthy (o : option string) : bool :=
  match o with Some s => Js.truthy_string s | None => false end.

Definition orEmpty (o : option string) : string :=
  match o with Some s => s | None => EmptyString end.

Definition code (c : ascii) : N := N_of_ascii c.

Definition isAlnum (c : ascii) : bool :=
  let n := code c in
  ((48 <=? n) && (n <=? 57) || (65 <=? n) && (n <=? 90)
   || (97 <=? n) && (n <=? 122))%N.

(** The whitespace the parser trims: code units below 33 and NBSP. *)
Definition isWs (c : ascii) : bool := ((code c <? 33) || (code c =? 160))%N.

Fixpoint trimStartWs (s : string) : string :=
  match s with
  | String c s' => if isWs c then trimStartWs s' else s
  | EmptyString => EmptyString
  end.

Fixpoint trimEndWs (s : string) : string :=
  match s with
  | String c s' =>
      match trimEndWs s' with
      | EmptyString => if isWs c then EmptyString else String c EmptyString
      | t => String c t
      end
  | EmptyString => EmptyString
  end.

(** Backslashes before the first [?] or [#] become slashes. *)
Fixpoint slashify (s : string) : string :=
  match s with
  | EmptyString => EmptyString
  | String c s' =>
      if Ascii.eqb c "?" || Ascii.eqb c "#" then s
      else String (if Ascii.eqb c "\" then "/"%char else c) (slashify s')
  end.

(** [protocolPattern = /^[a-z0-9.+-]+:/i]: the length of the match, colon
    included. *)
Fixpoint protocolLength (s : string) : option nat :=
  match s with
  | EmptyString => None
  | String c s' =>
      if isAlnum c || Ascii.eqb c "." || Ascii.eqb c "+" || Ascii.eqb c "-"
      then match s' with
           | String ":" _ => Some 2%nat
           | _ => option_map S (protocolLength s')
           end
      else None
  end.

Definition slashedProtocol (p : option string) : bool :=
  match p with
  | Some p =>
      existsb (String.eqb p)
        ["http:"; "https:"; "ftp:"; "gopher:"; "file:"; "ws:"; "wss:";
         "http"; "https"; "ftp"; "gopher"; "file"; "ws"; "wss"]
  | None => false
  end.

Definition hostlessProtocol (p : option string) : bool :=
  match p with
  | Some p => String.eqb p "javascript:" || String.eqb p "javascript"
  | None => false
  end.

(** Characters that are never part of a host name, and those that end it. *)
Definition isNonHostChar (c : ascii) : bool :=
  existsb (N.eqb (code c))
    [9; 10; 13; 32; 34; 37; 39; 59; 60; 62; 92; 94; 96; 123; 124; 125]%N.

Definition isHostEnd (c : ascii) : bool :=
  Ascii.eqb c "#" || Ascii.eqb c "/" || Ascii.eqb c "?".

Definition orElse (a : option nat) (i : nat) : option nat :=
  match a with Some _ => a | None => Some i end.

(** The scan for the last [@] and the first character past the host:
    ([atSign], [nonHost]). *)
Fixpoint scanHost (i : nat) (s : string) (atSign nonHost : option nat)
  : option nat * option nat :=
  match s with
  | EmptyString => (atSign, nonHost)
  | String c s' =>
      if isNonHostChar c then scanHost (S i) s' atSign (orElse nonHost i)
      else if isHostEnd c then (atSign, orElse nonHost i)
      else if Ascii.eqb c "@" then scanHost (S i) s' (Some i) None
      else scanHost (S i) s' atSign nonHost
  end.

Definition isDigit (c : ascii) : bool := ((48 <=? code c) && (code c <=? 57))%N.

(** [portPattern = /:[0-9]*$/]: the host without its port, and the port
    with its colon. *)
Fixpoint splitPort (s : string) : string * option string :=
  match s with
  | EmptyString => (EmptyString, None)
  | String c s' =>
      let all_digits :=
        (fix digits (t : string) : bool :=
           match t with
           | EmptyString => true
           | String d t' => isDigit d && digits t'
           end) s' in
      if Ascii.eqb c ":" && all_digits then (EmptyString, Some s)
      else let (h, p) := splitPort s' in (String c h, p)
  end.

(** [getHostname]: the host name stops at the first character that is not
    a letter, a digit, [.], [-], [+], [_] or above 127. *)
Definition isHostnameChar (c : ascii) : bool :=
  isAlnum c || Ascii.eqb c "." || Ascii.eqb c "-" || Ascii.eqb c "+"
  || Ascii.eqb c "_" || (127 <? code c)%N.

Fixpoint validPrefix (s : string) : string * string :=
  match s with
  | EmptyString => (EmptyString, EmptyString)
  | String c s' =>
      if isHostnameChar c
      then let (a, b) := validPrefix s' in (String c a, b)
      else (EmptyString, s)
  end.

Definition percent (c : ascii) : option string :=
  match code c with
  | 9%N => Some "%09" | 10%N => Some "%0A" | 13%N => Some "%0D"
  | 32%N => Some "%20" | 34%N => Some "%22" | 39%N => Some "%27"
  | 60%N => Some "%3C" | 62%N => Some "%3E" | 92%N => Some "%5C"
  | 94%N => Some "%5E" | 96%N => Some "%60" | 123%N => Some "%7B"
  | 124%N => Some "%7C" | 125%N => Some "%7D"
  | _ => None
  end.

Fixpoint autoEscapeStr (s : string) : string :=
  match s with
  | EmptyString => EmptyString
  | String c s' =>
      match percent c with
      | Some e => e ++ autoEscapeStr s'
      | None => String c (autoEscapeStr s')
      end
  end.

(** [s] up to the first [c], and the rest from that [c] on. *)
Fixpoint breakAt (c : ascii) (s : string) : string * option string :=
  match s with
  | EmptyString => (EmptyString, None)
  | String a s' =>
      if Ascii.eqb a c then (EmptyString, Some s)
      else let (l, r) := breakAt c s' in (String a l, r)
  end.

Definition nonEmpty (s : string) : option string :=
  match s with EmptyString => None | _ => Some s end.

Definition isSome {A : Type} (o : option A) : bool :=
  match o with Some _ => true | None => false end.

(** [Url.prototype.parse(url, false, true)] *)
Definition parse (url : string) : Url :=
  let rest := slashify (trimEndWs (trimStartWs url)) in
  let '(matched, rest) :=
    match protocolLength rest with
    | Some n => (Some (String.substring 0 n rest), Js.drop n rest)
    | None => (None, rest)
    end in
  let proto := option_map Js.toLowerCase matched in
  let slashes := String.prefix "//" rest in
  let hasSlashes := slashes && negb (hostlessProtocol proto) in
  let rest := if hasSlashes then Js.drop 2 rest else rest in
  let '(auth, host, hostname, port, rest) :=
    if negb (hostlessProtocol proto)
       && (slashes || isSome matched && negb (slashedProtocol matched))
    then
      let (atSign, nonHost) := scanHost 0 rest None None in
      let start := match atSign with Some a => S a | None => 0%nat end in
      let auth := option_map (fun a => String.substring 0 a rest) atSign in
      let host :=
        match nonHost with
        | Some n => String.substring start (n - start) rest
        | None => Js.drop start rest
        end in
      let rest :=
        match nonHost with Some n => Js.drop n rest | None => EmptyString end in
      let (name, colonPort) := splitPort host in
      let port :=
        match colonPort with
        | Some (String _ EmptyString) | None => None
        | Some p => Some (Js.drop 1 p)
        end in
      let (valid, invalid) := validPrefix name in
      let rest :=
        match invalid with
        | EmptyString => rest
        | _ => "/" ++ invalid ++ rest
        end in
      let hostname := Js.toLowerCase valid in
      let host :=
        hostname ++ match port with Some p => ":" ++ p | None => EmptyString end in
      (auth, Some host, Some hostname, port, rest)
    else (None, None, None, None, rest) in
  let rest := if hostlessProtocol proto then rest else autoEscapeStr rest in
  let (beforeHash, hash) := breakAt "#" rest in
  let (path, search) := breakAt "?" beforeHash in
  let pathname :=
    match nonEmpty path with
    | None => if slashedProtocol proto && truthy hostname then Some "/" else None
    | p => p
    end in
  mkUrl proto hasSlashes auth host hostname port pathname search hash.

(** In a path [#] and [?] are escaped, in a search [#]. *)
Fixpoint escapeChars (path : bool) (s : string) : string :=
  match s with
  | EmptyString => EmptyString
  | String c s' =>
      if Ascii.eqb c "#" then "%23" ++ escapeChars path s'
      else if path && Ascii.eqb c "?" then "%3F" ++ escapeChars path s'
      else String c (escapeChars path s')
  end.

Definition hexDigit (n : N) : ascii :=
  ascii_of_N (if (n <? 10)%N then 48 + n else 55 + n).

Definition hexByte (n : N) : string :=
  String "%" (String (hexDigit (n / 16)) (String (hexDigit (n mod 16)) EmptyString)).

(** [noEscapeAuth]: letters, digits and [! - . _ ~ ' ( ) * :]. *)
Definition noEscapeAuth (c : ascii) : bool :=
  isAlnum c
  || existsb (N.eqb (code c)) [33; 39; 40; 41; 42; 45; 46; 58; 95; 126]%N.

(** [encodeStr(auth, noEscapeAuth, hexTable)]: every other character is
    percent-encoded, in UTF-8. *)
Fixpoint encodeAuth (s : string) : string :=
  match s with
  | EmptyString => EmptyString
  | String c s' =>
      (if (127 <? code c)%N
       then hexByte (192 + code c / 64) ++ hexByte (128 + code c mod 64)
       else if noEscapeAuth c then String c EmptyString
       else hexByte (code c))
      ++ encodeAuth s'
  end.

(** [Url.prototype.format()] *)
Definition format (u : Url) : string :=
  let auth :=
    if truthy (auth u) then encodeAuth (orEmpty (auth u)) ++ "@"
    else EmptyString in
  let protocol := orEmpty (protocol u) in
  let pathname := escapeChars true (orEmpty (pathname u)) in
  let host :=
    if truthy (host u) then auth ++ orEmpty (host u)
    else if truthy (hostname u)
    then auth ++ orEmpty (hostname u)
         ++ match port u with
            | Some p => if Js.truthy_string p then ":" ++ p else EmptyString
            | None => EmptyString
            end
    else EmptyString in
  let search := escapeChars false (orEmpty (search u)) in
  let '(host, pathname) :=
    if slashes u || slashedProtocol (Some protocol) then
      if slashes u || Js.truthy_string host then
        ("//" ++ host,
         if Js.truthy_string pathname && negb (String.prefix "/" pathname)
         then "/" ++ pathname else pathname)
      else if String.prefix "file" protocol then ("//", pathname)
      else (host, pathname)
    else (host, pathname) in
  protocol ++ host ++ pathname ++ search ++ orEmpty (hash u).

(** The loop that strips single dots and resolves double dots, from the
    last segment to the first: the segments kept, and how many levels are
    still to go up. *)
Definition dotLoop (srcPath : list string) : list string * nat :=
  fold_right
    (fun seg '(kept, up) =>
       if String.eqb seg "." then (kept, up)
       else if String.eqb seg ".." then (kept, S up)
       else match up with
            | S up' => (kept, up')
            | O => (seg :: kept, O)
            end)
    ([], 0%nat) srcPath.

Definition headIs (l : list string) (s : string) : bool :=
  match l with h :: _ => String.eqb h s | [] => false end.

(** [if (path[0] === '') path[0] = host; else path.unshift(host)] *)
Definition putHost (h : string) (path : list string) : list string :=
  match path with
  | EmptyString :: tl => h :: tl
  | _ => h :: path
  end.

Definition pathList (p : option string) : list string :=
  if truthy p then Js.split "/" (orEmpty p) else [].

Fixpoint dropEmpty (l : list string) : list string :=
  match l with
  | EmptyString :: tl => dropEmpty tl
  | _ => l
  end.

(** The userinfo that got stuck in the host of a non-slashed URL, as in
    [mailto:local@domain]: [host.split('@')] when [host.indexOf('@') > 0]. *)
Definition authInHost (rAuth : option string) (h : string)
  : option string * option string :=
  match Js.split "@" h with
  | String c a :: h' :: _ => (Some (String c a), Some h')
  | _ => (rAuth, Some h)
  end.

(** [Url.prototype.resolveObject(relative)], [source] being [this]. *)
Definition resolveObject (source relative : Url) : Url :=
  let result :=
    mkUrl (protocol source) (slashes source) (auth source) (host source)
      (hostname source) (port source) (pathname source) (search source)
      (hash relative) in
  if negb (Js.truthy_string (format relative)) then result
  else if slashes relative && negb (isSome (protocol relative)) then
    (* hrefs like //foo/bar keep the protocol only *)
    mkUrl (protocol result) (slashes relative) (auth relative) (host relative)
      (hostname relative) (port relative)
      (if slashedProtocol (protocol result) && truthy (hostname relative)
          && negb (truthy (pathname relative))
       then Some "/" else pathname relative)
      (search relative) (hash relative)
  else if isSome (protocol relative)
          && negb (String.eqb (orEmpty (protocol relative))
                              (orEmpty (protocol result)))
  then
    if negb (slashedProtocol (protocol relative)) then relative
    else if negb (truthy (host relative))
            && negb (String.eqb (orEmpty (protocol relative)) "file:")
    then
      (* the first non-empty segment of the path becomes the host *)
      let segs := dropEmpty (Js.split "/" (orEmpty (pathname relative))) in
      let newHost := match segs with h :: _ => h | [] => EmptyString end in
      let relPath := match segs with _ :: tl => tl | [] => [] end in
      let relPath := if headIs relPath "" then relPath else EmptyString :: relPath in
      let relPath :=
        match relPath with
        | [] | [_] => EmptyString :: relPath
        | _ => relPath
        end in
      mkUrl (protocol relative) (slashes result || slashes relative)
        (auth relative) (Some newHost) (Some newHost) (port relative)
        (Some (Js.join "/" relPath)) (search relative) (hash relative)
    else
      mkUrl (protocol relative) (slashes result || slashes relative)
        (auth relative) (Some (orEmpty (host relative)))
        (if truthy (hostname relative) then hostname relative else host relative)
        (port relative) (pathname relative) (search relative) (hash relative)
  else
    let isSourceAbs := String.prefix "/" (orEmpty (pathname result)) in
    let isRelAbs :=
      truthy (host relative) || String.prefix "/" (orEmpty (pathname relative)) in
    let mustEndAbs :=
      isRelAbs || isSourceAbs
      || truthy (host result) && truthy (pathname relative) in
    let removeAllDots := mustEndAbs in
    let srcPath := pathList (pathname result) in
    let relPath := pathList (pathname relative) in
    let noLeadingSlashes :=
      isSome (protocol result) && negb (slashedProtocol (protocol result)) in
    (* the fields of [result] and [relative] the rest of the function
       assigns to *)
    let '(rAuth, rHost, rHostname, rPort, srcPath) :=
      if noLeadingSlashes
      then (if isSome (protocol relative) then None else auth result,
            Some EmptyString, Some EmptyString, None,
            if truthy (host result)
            then putHost (orEmpty (host result)) srcPath else srcPath)
      else (auth result, host result, hostname result, port result, srcPath) in
    let '(relHost, relHostname, relPort, relPath) :=
      if noLeadingSlashes && isSome (protocol relative)
      then (None, None, None,
            if truthy (host relative)
            then putHost (orEmpty (host relative)) relPath else relPath)
      else (host relative, hostname relative, port relative, relPath) in
    let mustEndAbs :=
      if noLeadingSlashes
      then mustEndAbs && (headIs relPath "" || headIs srcPath "")
      else mustEndAbs in
    let finish (rAuth rHost rHostname rPort pathname search : option string) :=
      mkUrl (protocol result) (slashes result || slashes relative)
        (if truthy (auth relative) then auth relative else rAuth)
        rHost rHostname rPort pathname search (hash relative) in
    let merge (rAuth rHost rHostname rPort : option string)
              (srcPath : list string) (search : option string) :=
      match srcPath with
      | [] =>
          (* no path at all *)
          mkUrl (protocol result) (slashes result) rAuth rHost rHostname rPort
            None search (hash relative)
      | _ =>
          let last := List.last srcPath EmptyString in
          let hasTrailingSlash :=
            (truthy rHost || truthy relHost || (1 <? List.length srcPath)%nat)
            && (String.eqb last "." || String.eqb last "..")
            || String.eqb last "" in
          let (kept, up) := dotLoop srcPath in
          let srcPath :=
            if negb mustEndAbs && negb removeAllDots
            then (List.repeat ".." up ++ kept)%list else kept in
          let srcPath :=
            if mustEndAbs && negb (headIs srcPath "")
               && match srcPath with
                  | h :: _ => negb (String.prefix "/" h)
                  | [] => true
                  end
            then EmptyString :: srcPath else srcPath in
          let joined := Js.join "/" srcPath in
          let srcPath :=
            if hasTrailingSlash
               && negb (String.eqb (Js.drop (String.length joined - 1) joined) "/")
            then (srcPath ++ [EmptyString])%list else srcPath in
          let isAbsolute :=
            match srcPath with
            | h :: _ => String.eqb h "" || String.prefix "/" h
            | [] => false
            end in
          let '(rAuth, rHost, srcPath) :=
            if noLeadingSlashes
            then match srcPath with
                 | h :: tl =>
                     if isAbsolute then (rAuth, Some EmptyString, srcPath)
                     else (authInHost rAuth h, tl)
                 | [] => (rAuth, Some EmptyString, srcPath)
                 end
            else (rAuth, rHost, srcPath) in
          let rHostname := if noLeadingSlashes then rHost else rHostname in
          let mustEndAbs :=
            mustEndAbs
            || truthy rHost && negb (Nat.eqb (List.length srcPath) 0) in
          let srcPath :=
            if mustEndAbs && negb isAbsolute then EmptyString :: srcPath
            else srcPath in
          finish rAuth rHost rHostname rPort
            (match srcPath with [] => None | _ => Some (Js.join "/" srcPath) end)
            search
      end in
    if isRelAbs then
      (* the relative URL is absolute *)
      let '(rAuth, rHost, rPort) :=
        match relHost with
        | Some h =>
            (if String.eqb (orEmpty rHost) h && isSome rHost then rAuth else None,
             relHost, relPort)
        | None => (rAuth, rHost, rPort)
        end in
      let '(rAuth, rHostname) :=
        match relHostname with
        | Some h =>
            (if String.eqb (orEmpty rHostname) h && isSome rHostname
             then rAuth else None,
             relHostname)
        | None => (rAuth, rHostname)
        end in
      merge rAuth rHost rHostname rPort relPath (search relative)
    else
      match relPath with
      | _ :: _ =>
          (* the existing file is thrown away, the new path taken *)
          merge rAuth rHost rHostname rPort
            (List.removelast srcPath ++ relPath)%list (search relative)
      | [] =>
          match search relative with
          | Some _ =>
              (* just the search, like href='?foo' *)
              let '(rAuth, rHost) :=
                if noLeadingSlashes
                then match srcPath with
                     | h :: _ => authInHost rAuth h
                     | [] => (rAuth, None)
                     end
                else (rAuth, rHost) in
              let rHostname := if noLeadingSlashes then rHost else rHostname in
              mkUrl (protocol result) (slashes result) rAuth rHost rHostname
                rPort (pathname result) (search relative) (hash relative)
          | None =>
              merge rAuth rHost rHostname rPort srcPath (search result)
          end
      end.

(** [url.resolve(source, relative)] *)
Definition resolve (source relative : string) : string :=
  format (resolveObject (parse source) (parse relative)).

End NodeUrl.

(** Node's [url.resolve] as the relay calls it; the reference model raises
    no exception. *)
Definition node_url_resolve (base ref : string) : option string :=
  Some (NodeUrl.resolve base ref).

(** ** JSON values and exceptions

    [response.json()] yields any JSON value; nothing in the relay checks
    its shape beforehand, so the embedding keeps all of them. *)

#[warnings="-register-all"]
Inductive json : Type :=
| JNull
| JBool (b : bool)
| JNum (n : Z)                 (* only whether a number is zero matters *)
| JStr (s : string)
| JArr (items : list json)
| JObj (fields : list (string * json)).   (* the properties, each key once *)

(** A JavaScript value of the resolver: a JSON value, or [None] for
    [undefined]. *)
Definition value : Type := option json.

Definition truthy (v : value) : bool :=
  match v with
  | None | Some JNull => false
  | Some (JBool b) => b
  | Some (JNum n) => negb (n =? 0)%Z
  | Some (JStr s) => Js.truthy_string s
  | Some (JArr _) | Some (JObj _) => true
  end.

(** An [Error] object; the [catch] clause reads [name] and [message]. *)
Record js_error : Type := mkError { name : string; message : string }.

Definition TypeError (msg : string) : js_error := mkError "TypeError" msg.

(** How an evaluation ends: with a result, or with a thrown exception (a
    rejected promise, once awaited). *)
Inductive completion (A : Type) : Type :=
| Normal (a : A)
| Throw (e : js_error).

Arguments Normal {A} a.
Arguments Throw {A} e.

Definition bind {A B : Type} (c : completion A) (k : A -> completion B)
  : completion B :=
  match c with
  | Normal a => k a
  | Throw e => Throw e
  end.

Notation "x <- c ;; k" := (bind c (fun x => k))
  (at level 61, c at next level, right associativity).

Fixpoint lookup (key : string) (fields : list (string * json)) : value :=
  match fields with
  | [] => None
  | (k, v) :: rest => if String.eqb k key then Some v else lookup key rest
  end.

(** [v.key] for the property names the resolver reads ([formatStreams],
    [adaptiveFormats], [hlsUrl], [container], [qualityLabel], [url]):
    [null] and [undefined] have no properties, an object has its own, and
    no string, number, boolean or array has a property of these names. *)
Definition get (v : value) (key : string) : completion value :=
  match v with
  | None | Some JNull => Throw (TypeError "Cannot read properties of null")
  | Some (JObj fields) => Normal (lookup key fields)
  | Some _ => Normal None
  end.

(** ** The provider resolver ([getHlsUrlFromInvidious]) *)

Inductive revision : Type :=
| ServerJs     (* src/server.js *)
| Relay        (* src/unnamed/part_000, first file *)
| Legacy.      (* src/unnamed/part_000, second file *)

Definition user_agent : string :=
  "Mozilla/5.0 (Windows NT 10.0; Win64; x64) AppleWebKit/537.36 (KHTML, like Gecko) Chrome/86.0.4240.198 Safari/537.36".

Definition INVIDIOUS_INSTANCES : list string :=
  ["https://invidious.f5.si"; "https://yt.omada.cafe"; "https://inv.perditum.com";
   "https://iv.melmac.space"; "https://invidious.nikkosphere.com"; "https://iv.duti.dev";
   "https://youtube.alt.tyil.nl"; "https://inv.antopie.org"; "https://lekker.gay";
   "https://invidious.ducks.party"; "https://super8.absturztau.be"; "https://inv.vern.cc";
   "https://yt.thechangebook.org"; "https://invidious.materialio.us";
   "https://invid-api.poketube.fun"].

Definition API_TIMEOUT_MS : Z := 5000.
Definition HLS_FORMAT_NAME : string := "hls".
Definition TARGET_DOMAIN : string := "manifest.googlevideo.com".

(** What [fetch] is called with: the URL and the [User-Agent] header
    ([Legacy] sends none). *)
Record request : Type := mkRequest { req_url : string; req_agent : option string }.

(** What the awaited [fetch] gives when it resolves: the status, and how
    [response.json()] ends.  The body is taken to end, with a value or with
    an exception.  The source clears the abort timer as soon as [fetch]
    resolves and then awaits [response.json()] with no guard, so a body
    that never ends would keep the resolver from ever returning; that
    outcome is outside the model, and what is stated below of a resolution
    is stated of one whose awaited operations all settle. *)
Record response : Type := mkResponse { status : N; json_body : completion json }.

(** [response.ok] *)
Definition ok (r : response) : bool := ((200 <=? status r) && (status r <? 300))%N.

(** The network: how the [n]-th [fetch] of one resolution ends.  A request
    the [AbortController] cuts off after [API_TIMEOUT_MS] is rejected with
    an error named [AbortError]. *)
Definition network : Type := nat -> request -> completion response.

(** What one resolution does, in order. *)
Inductive event : Type :=
| LogTrying (instance : string)
| Fetched (n : nat) (req : request)
| LogSuccess (instance : string)
| LogNoUrl (instance : string)
| LogTimeout (instance : string)
| LogFailure (instance : string) (message : string).

Definition strictEquals (v : value) (s : string) : bool :=
  match v with Some (JStr t) => String.eqb t s | _ => false end.

(** The callback of [formats.find]. *)
Definition isHlsFormat (f : json) : completion bool :=
  container <- get (Some f) "container" ;;
  if strictEquals container HLS_FORMAT_NAME then Normal true
  else
    qualityLabel <- get (Some f) "qualityLabel" ;;
    if truthy qualityLabel then
      match qualityLabel with
      | Some (JStr s) => Normal (Js.includes (Js.toLowerCase s) HLS_FORMAT_NAME)
      | _ => Throw (TypeError "f.qualityLabel.toLowerCase is not a function")
      end
    else Normal false.

(** [Array.prototype.find] with that callback. *)
Fixpoint find (items : list json) : completion value :=
  match items with
  | [] => Normal None
  | f :: rest =>
      matches <- isHlsFormat f ;;
      if matches then Normal (Some f) else find rest
  end.

(** [videoInfo.formatStreams || videoInfo.adaptiveFormats || []] *)
Definition selectFormats (videoInfo : json) : completion value :=
  formatStreams <- get (Some videoInfo) "formatStreams" ;;
  if truthy formatStreams then Normal formatStreams
  else
    adaptiveFormats <- get (Some videoInfo) "adaptiveFormats" ;;
    if truthy adaptiveFormats then Normal adaptiveFormats
    else Normal (Some (JArr [])).

(** [formats.find(...)]: only an array has [find]. *)
Definition findHlsFormat (formats : value) : completion value :=
  match formats with
  | Some (JArr items) => find items
  | _ => Throw (TypeError "formats.find is not a function")
  end.

Section Resolver.

Variable rev : revision.
Variable url_resolve : string -> string -> option string.
Variable net : network.

(** [hlsFormat ? hlsFormat.url : videoInfo.hlsUrl], with [null] for the
    second branch in [Legacy]. *)
Definition chooseUrl (videoInfo : json) (hlsFormat : value) : completion value :=
  if truthy hlsFormat then get hlsFormat "url"
  else match rev with
       | Legacy => Normal (Some JNull)
       | ServerJs | Relay => get (Some videoInfo) "hlsUrl"
       end.

(** [Relay] only: [if (!hlsUrl.startsWith('http')) hlsUrl =
    url.resolve(instance, hlsUrl)]. *)
Definition absolutize (instance : string) (hlsUrl : value) : completion value :=
  match rev with
  | Relay =>
      match hlsUrl with
      | Some (JStr s) =>
          if negb (Js.startsWith s "http") then
            match url_resolve instance s with
            | Some r => Normal (Some (JStr r))
            | None => Throw (TypeError "Invalid URL")
            end
          else Normal hlsUrl
      | _ => Throw (TypeError "hlsUrl.startsWith is not a function")
      end
  | ServerJs | Legacy => Normal hlsUrl
  end.

(** The [try] block from the parsed body on: [Normal (Some url)] when it
    returns [url], [Normal None] when it ends without returning. *)
Definition extract (instance : string) (videoInfo : json)
  : completion (option value) :=
  formats <- selectFormats videoInfo ;;
  hlsFormat <- findHlsFormat formats ;;
  hlsUrl <- chooseUrl videoInfo hlsFormat ;;
  if truthy hlsUrl then
    hlsUrl <- absolutize instance hlsUrl ;;
    Normal (Some hlsUrl)
  else Normal None.

Definition apiRequest (instance videoId : string) : request :=
  mkRequest (instance ++ "/api/v1/videos/" ++ videoId)
    match rev with Legacy => None | ServerJs | Relay => Some user_agent end.

(** The message of [new Error(`HTTP...: ${response.status}`)] (the
    source's prefix is in Japanese). *)
Definition httpError (r : response) : js_error :=
  mkError "Error"
    ("HTTP error: " ++ NilEmpty.string_of_uint (N.to_uint (status r))).

(** The whole [try] block of one iteration, the [n]-th of the loop. *)
Definition attempt (n : nat) (instance videoId : string)
  : completion (option value) :=
  response <- net n (apiRequest instance videoId) ;;
  if negb (ok response) then Throw (httpError response)
  else
    videoInfo <- json_body response ;;
    extract instance videoInfo.

(** The [for ... of] loop from its [n]-th iteration on: the events, and
    the value returned, [null] after the last instance.  The [catch] clause
    takes every exception of the [try] block and nothing outside the block
    throws, so the loop has no exceptional outcome. *)
Fixpoint resolveFrom (n : nat) (instances : list string) (videoId : string)
  : list event * value :=
  match instances with
  | [] => ([], Some JNull)
  | instance :: rest =>
      let next (diagnostic : event) :=
        let (events, result) := resolveFrom (S n) rest videoId in
        (LogTrying instance :: Fetched n (apiRequest instance videoId)
           :: diagnostic :: events, result) in
      match attempt n instance videoId with
      | Normal (Some hlsUrl) =>
          ([LogTrying instance; Fetched n (apiRequest instance videoId);
            LogSuccess instance], hlsUrl)
      | Normal None => next (LogNoUrl instance)
      | Throw error =>
          next (if String.eqb (name error) "AbortError"
                then LogTimeout instance
                else LogFailure instance (message error))
      end
  end.

(** [getHlsUrlFromInvidious(videoId)] over the configured [instances]
    ([INVIDIOUS_INSTANCES] in the source). *)
Definition getHlsUrlFromInvidious (instances : list string) (videoId : string)
  : list event * value :=
  resolveFrom 0 instances videoId.

End Resolver.

(** The requests of a trace, in order. *)
Fixpoint queries (events : list event) : list request :=
  match events with
  | [] => []
  | Fetched _ req :: rest => req :: queries rest
  | _ :: rest => queries rest
  end.

(** ** The WHATWG URL class: the record, the two setters and the serializer
    the address rewriter uses

    The setters and the serializer follow the URL Standard (the API's
    [hostname] and [protocol] setters, which run the basic URL parser with a
    state override, and the URL serializer).  The constructor's parser and
    the host parser are arguments of [replaceDomain]; a reference model of
    both follows for concrete inputs. *)

Module Whatwg.

Inductive url_path : Type :=
| Opaque (p : string)
| Segments (l : list string).

Record URL : Type := mkURL {
  scheme : string;
  username : string;
  password : string;
  host : option string;      (* serialized; [None] is the null host *)
  port : option N;
  path : url_path;
  query : option string;
  fragment : option string
}.

Definition isSpecial (scheme : string) : bool :=
  existsb (String.eqb scheme) ["ftp"; "file"; "http"; "https"; "ws"; "wss"].

Definition defaultPort (scheme : string) : option N :=
  if String.eqb scheme "ftp" then Some 21%N
  else if String.eqb scheme "http" || String.eqb scheme "ws" then Some 80%N
  else if String.eqb scheme "https" || String.eqb scheme "wss" then Some 443%N
  else None.

Definition hasOpaquePath (u : URL) : bool :=
  match path u with Opaque _ => true | Segments _ => false end.

Definition includesCredentials (u : URL) : bool :=
  Js.truthy_string (username u) || Js.truthy_string (password u).

Definition code (c : ascii) : N := N_of_ascii c.

Definition isAlpha (c : ascii) : bool :=
  ((65 <=? code c) && (code c <=? 90) || (97 <=? code c) && (code c <=? 122))%N.

Definition isDigit (c : ascii) : bool := ((48 <=? code c) && (code c <=? 57))%N.

(** The basic URL parser first removes every ASCII tab or newline. *)
Fixpoint removeTabNewline (s : string) : string :=
  match s with
  | EmptyString => EmptyString
  | String c s' =>
      if existsb (N.eqb (code c)) [9; 10; 13]%N then removeTabNewline s'
      else String c (removeTabNewline s')
  end.

(** The code points that end the host in the host state. *)
Definition endsHost (special : bool) (c : ascii) : bool :=
  Ascii.eqb c "/" || Ascii.eqb c "?" || Ascii.eqb c "#"
  || special && Ascii.eqb c "\".

(** The hostname state: the buffer up to the end of the host, or [None]
    when a colon outside brackets comes first. *)
Fixpoint hostnameBuffer (special inBrackets : bool) (s : string) : option string :=
  match s with
  | EmptyString => Some EmptyString
  | String c s' =>
      if Ascii.eqb c ":" && negb inBrackets then None
      else if endsHost special c then Some EmptyString
      else
        let inBrackets :=
          if Ascii.eqb c "[" then true
          else if Ascii.eqb c "]" then false else inBrackets in
        option_map (String c) (hostnameBuffer special inBrackets s')
  end.

(** The file host state: the buffer up to the first slash, backslash,
    question mark or hash. *)
Fixpoint fileHostBuffer (s : string) : string :=
  match s with
  | EmptyString => EmptyString
  | String c s' =>
      if endsHost true c then EmptyString else String c (fileHostBuffer s')
  end.

Definition withHost (u : URL) (h : string) : URL :=
  mkURL (scheme u) (username u) (password u) (Some h) (port u) (path u)
    (query u) (fragment u).

Section Setters.

(** The host parser: [host_parse isOpaque input], [None] for failure. *)
Variable host_parse : bool -> string -> option string.

(** [url.hostname = value]: nothing changes when the URL has an opaque
    path, when the value holds a port, or when it is no valid host. *)
Definition set_hostname (u : URL) (value : string) : URL :=
  if hasOpaquePath u then u
  else
    let input := removeTabNewline value in
    let special := isSpecial (scheme u) in
    if String.eqb (scheme u) "file" then
      match fileHostBuffer input with
      | EmptyString => withHost u EmptyString
      | buffer =>
          match host_parse (negb special) buffer with
          | Some h => withHost u (if String.eqb h "localhost" then EmptyString else h)
          | None => u
          end
      end
    else
      match hostnameBuffer special false input with
      | None => u
      | Some buffer =>
          if special && negb (Js.truthy_string buffer) then u
          else if negb (Js.truthy_string buffer)
                  && (includesCredentials u
                      || match port u with Some _ => true | None => false end)
          then u
          else match host_parse (negb special) buffer with
               | Some h => withHost u h
               | None => u
               end
      end.

End Setters.

Definition lowerAscii (c : ascii) : ascii :=
  if ((65 <=? code c) && (code c <=? 90))%N then ascii_of_N (code c + 32) else c.

Definition isSchemeChar (c : ascii) : bool :=
  isAlpha c || isDigit c || Ascii.eqb c "+" || Ascii.eqb c "-" || Ascii.eqb c ".".

(** The scheme state: the lower-cased scheme and what follows its colon. *)
Fixpoint schemeBuffer (s : string) : option (string * string) :=
  match s with
  | EmptyString => None
  | String c s' =>
      if Ascii.eqb c ":" then Some (EmptyString, s')
      else if isSchemeChar c
      then match schemeBuffer s' with
           | Some (b, rest) => Some (String (lowerAscii c) b, rest)
           | None => None
           end
      else None
  end.

Definition scanScheme (s : string) : option (string * string) :=
  match s with
  | String c _ => if isAlpha c then schemeBuffer s else None
  | EmptyString => None
  end.

(** [url.protocol = value]: the scheme changes only between two special
    schemes or between two others, never to [file] from a URL with
    credentials or a port, never from [file] with an empty host; a port that
    is the new scheme's default is dropped. *)
Definition set_protocol (u : URL) (value : string) : URL :=
  match scanScheme (removeTabNewline (value ++ ":")) with
  | None => u
  | Some (buffer, _) =>
      if negb (Bool.eqb (isSpecial (scheme u)) (isSpecial buffer)) then u
      else if (includesCredentials u
               || match port u with Some _ => true | None => false end)
              && String.eqb buffer "file"
      then u
      else if String.eqb (scheme u) "file"
              && match host u with Some EmptyString => true | _ => false end
      then u
      else
        mkURL buffer (username u) (password u) (host u)
          (match port u, defaultPort buffer with
           | Some p, Some d => if (p =? d)%N then None else Some p
           | p, _ => p
           end)
          (path u) (query u) (fragment u)
  end.

Definition serializePath (p : url_path) : string :=
  match p with
  | Opaque s => s
  | Segments l => String.concat EmptyString (map (fun seg => "/" ++ seg) l)
  end.

(** The URL serializer ([href], [toString()]). *)
Definition serialize (u : URL) : string :=
  scheme u ++ ":"
  ++ match host u with
     | Some h =>
         "//"
         ++ (if includesCredentials u
             then username u
                  ++ (if Js.truthy_string (password u)
                      then ":" ++ password u else EmptyString)
                  ++ "@"
             else EmptyString)
         ++ h
         ++ match port u with
            | Some p => ":" ++ NilEmpty.string_of_uint (N.to_uint p)
            | None => EmptyString
            end
     | None =>
         match path u with
         | Segments (EmptyString :: _ :: _) => "/."
         | _ => EmptyString
         end
     end
  ++ serializePath (path u)
  ++ match query u with Some q => "?" ++ q | None => EmptyString end
  ++ match fragment u with Some f => "#" ++ f | None => EmptyString end.

End Whatwg.

(** ** The address rewriter ([replaceDomain], in [Relay]) *)

Section AddressRewriter.

(** [new URL(s)]: [None] when the constructor throws. *)
Variable URL_parse : string -> option Whatwg.URL.
Variable host_parse : bool -> string -> option string.

(** The [catch] clause logs and returns the argument. *)
Definition replaceDomain (hlsUrl newDomain : string) : string :=
  match URL_parse hlsUrl with
  | Some parsedUrl =>
      let parsedUrl :=
        Whatwg.set_hostname host_parse parsedUrl (Js.replace_scheme newDomain) in
      let parsedUrl := Whatwg.set_protocol parsedUrl "https:" in
      Whatwg.serialize parsedUrl
  | None => hlsUrl
  end.

End AddressRewriter.

(** ** A reference model of the URL constructor and of the host parser

    The basic URL parser of the URL Standard, run without a base URL, on
    strings of code units below 256.  Left out: IDNA conversion and
    percent-decoding of a domain, the numeric forms of an IPv4 address,
    IPv6 addresses, and the Windows drive letter rules of [file] URLs; the
    model is exact where none of these is involved.  Only examples and
    counterexamples are evaluated with it. *)

Module WhatwgModel.

Import Whatwg.

Definition hexDigit (n : N) : ascii :=
  ascii_of_N (if (n <? 10)%N then 48 + n else 55 + n).

Definition percentByte (n : N) : string :=
  String "%" (String (hexDigit (n / 16)) (String (hexDigit (n mod 16)) EmptyString)).

(** UTF-8 percent-encoding of the code points of [s] that are in [set] or
    above 127. *)
Fixpoint percentEncode (set : ascii -> bool) (s : string) : string :=
  match s with
  | EmptyString => EmptyString
  | String c s' =>
      (if (127 <? code c)%N
       then percentByte (192 + code c / 64) ++ percentByte (128 + code c mod 64)
       else if set c then percentByte (code c)
       else String c EmptyString)
      ++ percentEncode set s'
  end.

Definition oneOf (l : list N) (c : ascii) : bool := existsb (N.eqb (code c)) l.

Definition c0ControlSet (c : ascii) : bool := ((code c <? 32) || (code c =? 127))%N.
Definition fragmentSet (c : ascii) : bool :=
  c0ControlSet c || oneOf [32; 34; 60; 62; 96]%N c.
Definition querySet (c : ascii) : bool :=
  c0ControlSet c || oneOf [32; 34; 35; 60; 62]%N c.
Definition specialQuerySet (c : ascii) : bool := querySet c || oneOf [39]%N c.
Definition pathSet (c : ascii) : bool :=
  querySet c || oneOf [63; 94; 96; 123; 125]%N c.
Definition userinfoSet (c : ascii) : bool :=
  pathSet c || oneOf [47; 58; 59; 61; 64; 91; 92; 93; 124]%N c.

Definition forbiddenHost (c : ascii) : bool :=
  oneOf [0; 9; 10; 13; 32; 35; 47; 58; 60; 62; 63; 64; 91; 92; 93; 94; 124]%N c.
Definition forbiddenDomain (c : ascii) : bool :=
  forbiddenHost c || c0ControlSet c || oneOf [37]%N c.

Fixpoint anyChar (p : ascii -> bool) (s : string) : bool :=
  match s with
  | EmptyString => false
  | String c s' => p c || anyChar p s'
  end.

Fixpoint mapChars (f : ascii -> ascii) (s : string) : string :=
  match s with
  | EmptyString => EmptyString
  | String c s' => String (f c) (mapChars f s')
  end.

(** The host parser: an opaque host, or an ASCII domain. *)
Definition parseHost (isOpaque : bool) (input : string) : option string :=
  if isOpaque then
    if anyChar forbiddenHost input then None
    else Some (percentEncode c0ControlSet input)
  else
    let domain := mapChars lowerAscii input in
    if negb (Js.truthy_string domain) || anyChar forbiddenDomain domain
    then None else Some domain.

Definition isC0OrSpace (c : ascii) : bool := (code c <=? 32)%N.

Fixpoint stripStart (s : string) : string :=
  match s with
  | String c s' => if isC0OrSpace c then stripStart s' else s
  | EmptyString => EmptyString
  end.

Fixpoint stripEnd (s : string) : string :=
  match s with
  | String c s' =>
      match stripEnd s' with
      | EmptyString => if isC0OrSpace c then EmptyString else String c EmptyString
      | t => String c t
      end
  | EmptyString => EmptyString
  end.

(** [s] up to the first character that satisfies [p], and the rest. *)
Fixpoint breakWhen (p : ascii -> bool) (s : string) : string * string :=
  match s with
  | EmptyString => (EmptyString, EmptyString)
  | String c s' =>
      if p c then (EmptyString, s)
      else let (a, b) := breakWhen p s' in (String c a, b)
  end.

(** [s] split at its last [c]: what is before it and what is after. *)
Fixpoint breakLast (c : ascii) (s : string) : option (string * string) :=
  match s with
  | EmptyString => None
  | String a s' =>
      match breakLast c s' with
      | Some (l, r) => Some (String a l, r)
      | None => if Ascii.eqb a c then Some (EmptyString, s') else None
      end
  end.

(** The host and, after a colon outside brackets, the port. *)
Fixpoint breakPort (inBrackets : bool) (s : string) : string * option string :=
  match s with
  | EmptyString => (EmptyString, None)
  | String c s' =>
      if Ascii.eqb c ":" && negb inBrackets then (EmptyString, Some s')
      else
        let inBrackets :=
          if Ascii.eqb c "[" then true
          else if Ascii.eqb c "]" then false else inBrackets in
        let (h, p) := breakPort inBrackets s' in (String c h, p)
  end.

Fixpoint decimal (acc : N) (s : string) : option N :=
  match s with
  | EmptyString => Some acc
  | String c s' =>
      if isDigit c then decimal (10 * acc + (code c - 48)) s' else None
  end.

Definition isSingleDot (seg : string) : bool :=
  let seg := mapChars lowerAscii seg in
  String.eqb seg "." || String.eqb seg "%2e".

Definition isDoubleDot (seg : string) : bool :=
  let seg := mapChars lowerAscii seg in
  existsb (String.eqb seg) [".."; ".%2e"; "%2e."; "%2e%2e"].

(** The path state, segment by segment. *)
Fixpoint pathSegments (acc segs : list string) : list string :=
  match segs with
  | [] => acc
  | seg :: rest =>
      let last := match rest with [] => true | _ => false end in
      let slot := if last then [EmptyString] else [] in
      pathSegments
        (if isDoubleDot seg then List.removelast acc ++ slot
         else if isSingleDot seg then acc ++ slot
         else acc ++ [percentEncode pathSet seg])%list
        rest
  end.

Definition slashes (special : bool) (c : ascii) : ascii :=
  if special && Ascii.eqb c "\" then "/"%char else c.

(** Path, query and fragment, from the path start state on. *)
Definition parseTail (special : bool) (rest : string)
  : url_path * option string * option string :=
  let (beforeHash, hashed) := breakWhen (Ascii.eqb "#") rest in
  let (pathStr, queried) := breakWhen (Ascii.eqb "?") beforeHash in
  let segments :=
    match mapChars (slashes special) pathStr with
    | EmptyString => if special then [EmptyString] else []
    | String "/" p => pathSegments [] (Js.split "/" p)
    | p => pathSegments [] (Js.split "/" p)
    end in
  (Segments segments,
   match queried with
   | String _ q =>
       Some (percentEncode (if special then specialQuerySet else querySet) q)
   | EmptyString => None
   end,
   match hashed with
   | String _ f => Some (percentEncode fragmentSet f)
   | EmptyString => None
   end).

Definition isSome {A : Type} (o : option A) : bool :=
  match o with Some _ => true | None => false end.

(** The authority, host and port states. *)
Definition parseAuthority (scheme : string) (special : bool) (s : string)
  : option URL :=
  let (authority, rest) := breakWhen (endsHost special) s in
  let '(credentials, hostport) :=
    match breakLast "@" authority with
    | Some (userinfo, hostport) => (Some userinfo, hostport)
    | None => (None, authority)
    end in
  let (user, pass) :=
    match credentials with
    | Some userinfo =>
        let (u, p) := breakWhen (Ascii.eqb ":") userinfo in
        (percentEncode userinfoSet u, percentEncode userinfoSet (Js.drop 1 p))
    | None => (EmptyString, EmptyString)
    end in
  let (hostStr, portStr) := breakPort false hostport in
  if negb (Js.truthy_string hostStr)
     && (special || isSome portStr || isSome credentials)
  then None
  else
    match parseHost (negb special) hostStr,
          match portStr with Some p => decimal 0 p | None => Some 0%N end with
    | Some h, Some n =>
        if (65535 <? n)%N then None
        else
          let port :=
            match portStr with
            | Some (String _ _) =>
                match defaultPort scheme with
                | Some d => if (n =? d)%N then None else Some n
                | None => Some n
                end
            | _ => None
            end in
          let '(p, q, f) := parseTail special rest in
          Some (mkURL scheme user pass (Some h) port p q f)
    | _, _ => None
    end.

Fixpoint dropSlashes (s : string) : string :=
  match s with
  | String c s' =>
      if Ascii.eqb c "/" || Ascii.eqb c "\" then dropSlashes s' else s
  | EmptyString => EmptyString
  end.

(** The file, file slash and file host states, without a base URL. *)
Definition parseFile (rest : string) : option URL :=
  let isSlash (c : ascii) := Ascii.eqb c "/" || Ascii.eqb c "\" in
  match rest with
  | String a (String b s) =>
      if isSlash a && isSlash b then
        let (buffer, tail) := breakWhen (endsHost true) s in
        match buffer with
        | EmptyString =>
            let '(p, q, f) := parseTail true tail in
            Some (mkURL "file" EmptyString EmptyString (Some EmptyString) None p q f)
        | _ =>
            match parseHost false buffer with
            | Some h =>
                let '(p, q, f) := parseTail true tail in
                Some (mkURL "file" EmptyString EmptyString
                        (Some (if String.eqb h "localhost" then EmptyString else h))
                        None p q f)
            | None => None
            end
        end
      else
        let '(p, q, f) := parseTail true rest in
        Some (mkURL "file" EmptyString EmptyString (Some EmptyString) None p q f)
  | _ =>
      let '(p, q, f) := parseTail true rest in
      Some (mkURL "file" EmptyString EmptyString (Some EmptyString) None p q f)
  end.

(** [new URL(input)]: [None] when the constructor throws [TypeError]. *)
Definition parse (input : string) : option URL :=
  let input := removeTabNewline (stripEnd (stripStart input)) in
  match scanScheme input with
  | None => None
  | Some (scheme, rest) =>
      if String.eqb scheme "file" then parseFile rest
      else if isSpecial scheme then parseAuthority scheme true (dropSlashes rest)
      else if String.prefix "//" rest then parseAuthority scheme false (Js.drop 2 rest)
      else if String.prefix "/" rest then
        let '(p, q, f) := parseTail false rest in
        Some (mkURL scheme EmptyString EmptyString None None p q f)
      else
        let (beforeHash, hashed) := breakWhen (Ascii.eqb "#") rest in
        let (opaque, queried) := breakWhen (Ascii.eqb "?") beforeHash in
        Some (mkURL scheme EmptyString EmptyString None None
                (Opaque (percentEncode c0ControlSet opaque))
                match queried with
                | String _ q => Some (percentEncode querySet q)
                | EmptyString => None
                end
                match hashed with
                | String _ f => Some (percentEncode fragmentSet f)
                | EmptyString => None
                end)
  end.

End WhatwgModel.

(** ** Sample inputs

    The example of the specification: a manifest, the URL it was fetched
    from, and its rewritten form. *)

Definition example_manifest : string :=
  Js.join Js.LF ["#EXTM3U"; "seg0.ts"; "https://cdn.x/seg1.ts"; "#EXT-X-ENDLIST"].

Definition example_source : string := "https://host/path/master.m3u8".

Definition example_rewritten : string :=
  Js.join Js.LF
    ["#EXTM3U"; "https://host/path/seg0.ts"; "https://cdn.x/seg1.ts";
     "#EXT-X-ENDLIST"].

(** Every character of [s] is white space. *)
Fixpoint allWhiteSpace (s : string) : bool :=
  match s with
  | EmptyString => true
  | String c s' => Js.isWhiteSpace c && allWhiteSpace s'
  end.

(** ** Outcomes of one endpoint *)

(** The [try] block returned a URL. *)
Definition producesUrl (c : completion (option value)) : bool :=
  match c with
  | Normal (Some _) => true
  | Normal None | Throw _ => false
  end.

(** The ways an endpoint fails, by what the awaited [fetch] gave: a
    network failure, a timeout, a status outside 200..299, a body that is
    not JSON, a body with no stream URL in it, a body of another shape than
    the resolver reads (an exception while reading it). *)
Inductive endpoint_failure (rev : revision)
    (url_resolve : string -> string -> option string) (instance : string)
  : completion response -> Prop :=
| NetworkFailure (e : js_error) :
    name e <> "AbortError" ->
    endpoint_failure rev url_resolve instance (Throw e)
| TimedOut (e : js_error) :
    name e = "AbortError" ->
    endpoint_failure rev url_resolve instance (Throw e)
| BadStatus (r : response) :
    ok r = false ->
    endpoint_failure rev url_resolve instance (Normal r)
| UnparseableBody (r : response) (e : js_error) :
    ok r = true -> json_body r = Throw e ->
    endpoint_failure rev url_resolve instance (Normal r)
| NoStreamUrl (r : response) (videoInfo : json) :
    ok r = true -> json_body r = Normal videoInfo ->
    extract rev url_resolve instance videoInfo = Normal None ->
    endpoint_failure rev url_resolve instance (Normal r)
| UnreadableBody (r : response) (videoInfo : json) (e : js_error) :
    ok r = true -> json_body r = Normal videoInfo ->
    extract rev url_resolve instance videoInfo = Throw e ->
    endpoint_failure rev url_resolve instance (Normal r).

(** The log entry that closes a failed iteration. *)
Definition isDiagnostic (instance : string) (e : event) : Prop :=
  e = LogNoUrl instance \/ e = LogTimeout instance
  \/ exists msg, e = LogFailure instance msg.

(** A run of the specification's example: three providers, the first two
    time out, the third reports an HLS format. *)
Definition three_providers : list string :=
  ["https://p1.example"; "https://p2.example"; "https://p3.example"].

Definition hls_body : json :=
  JObj [("formatStreams",
         JArr [JObj [("container", JStr "hls");
                     ("url", JStr "https://p3.example/live/index.m3u8")]])].

Definition third_answers : network :=
  fun n _ =>
    match n with
    | 0%nat | 1%nat => Throw (mkError "AbortError" "The user aborted a request.")
    | _ => Normal (mkResponse 200 (Normal hls_body))
    end.

(** A network on which every request fails, each in another way. *)
Definition all_fail : network :=
  fun n _ =>
    match n with
    | 0%nat => Throw (mkError "FetchError" "getaddrinfo ENOTFOUND")
    | 1%nat => Throw (mkError "AbortError" "The user aborted a request.")
    | 2%nat => Normal (mkResponse 503 (Normal JNull))
    | 3%nat => Normal (mkResponse 200 (Throw (mkError "SyntaxError" "Unexpected token")))
    | _ => Normal (mkResponse 200 (Normal (JObj [("formatStreams", JArr [])])))
    end.

(** ** Format descriptors, as the specification words them *)

(** A descriptor whose container tag equals [hls], or whose quality label
    is a text that, in lower case, contains [hls]. *)
Definition matchesHls (f : json) : bool :=
  match f with
  | JObj fields =>
      strictEquals (lookup "container" fields) HLS_FORMAT_NAME
      || match lookup "qualityLabel" fields with
         | Some (JStr s) => Js.includes (Js.toLowerCase s) HLS_FORMAT_NAME
         | _ => false
         end
  | _ => false
  end.

(** An element of the format list the callback of [find] can read: not
    [null], and with a quality label that is a text when it is truthy. *)
Definition readable (f : json) : bool :=
  match f with
  | JNull => false
  | JObj fields =>
      match lookup "qualityLabel" fields with
      | Some (JStr _) | None => true
      | q => negb (truthy q)
      end
  | _ => true
  end.

(** The value of [hlsUrl] before the test [if (hlsUrl)]. *)
Definition rawUrl (rev : revision) (videoInfo : json) : completion value :=
  formats <- selectFormats videoInfo ;;
  hlsFormat <- findHlsFormat formats ;;
  chooseUrl rev videoInfo hlsFormat.

(** Sample responses. *)
Definition numeric_label_body : json :=
  JObj [("formatStreams", JArr [JObj [("qualityLabel", JNum 720)]]);
        ("hlsUrl", JStr "https://p3.example/live/index.m3u8")].

Definition direct_url_body : json :=
  JObj [("formatStreams", JArr []);
        ("hlsUrl", JStr "https://p3.example/live/index.m3u8")].

Definition relative_url_body : json :=
  JObj [("hlsUrl", JStr "/api/manifest/hls_variant/abc.m3u8")].

Definition shadowed_body : json :=
  JObj [("formatStreams", JArr []);
        ("adaptiveFormats",
         JArr [JObj [("container", JStr "hls");
                     ("url", JStr "https://p3.example/live/index.m3u8")]])].

(** A format list with a descriptor that does not match, an HLS descriptor
    whose quality label is a number, and [null] behind it. *)
Definition mp4_descriptor : json :=
  JObj [("container", JStr "mp4"); ("qualityLabel", JStr "720p");
        ("url", JStr "https://p3.example/v.mp4")].

Definition hls_descriptor : json :=
  JObj [("container", JStr "hls"); ("qualityLabel", JNum 1080);
        ("url", JStr "https://p3.example/live/index.m3u8")].

Definition mixed_body : json :=
  JObj [("formatStreams", JArr [mp4_descriptor; hls_descriptor; JNull]);
        ("hlsUrl", JStr "https://p3.example/other.m3u8")].

(** A response whose [hlsUrl] is an object with a property [toString]: a
    truthy value with no string form. *)
Definition unprintable_url_body : json :=
  JObj [("hlsUrl", JObj [("toString", JNull)])].

(** A network on which every provider answers 200 with the same body. *)
Definition always (body : json) : network :=
  fun _ _ => Normal (mkResponse 200 (Normal body)).

(** ** Host names *)

(** The characters that end or split a host in the hostname state
    ([#] [/] [:] [?] [\] and the brackets), and tab, line feed and carriage
    return. *)
Definition splitsHost (c : ascii) : bool :=
  existsb (N.eqb (N_of_ascii c)) [9; 10; 13; 35; 47; 58; 63; 91; 92; 93]%N.

Fixpoint noneSplitsHost (s : string) : bool :=
  match s with
  | EmptyString => true
  | String c s' => negb (splitsHost c) && noneSplitsHost s'
  end.

(** A non-empty text without any of these characters. *)
Definition plainHost (s : string) : bool :=
  Js.truthy_string s && noneSplitsHost s.

(** The URL of the specification's example for the address rewriter. *)
Definition example_stream : string :=
  "https://r1---sn-abc.googlevideo.com/videoplayback?id=1".

(** ** The routes ([router.get("/get/:id")] in the three revisions,
    [router.get("/get/url/:videoid")] in [Relay])

    A reply records the status, the headers the handler sets with
    [res.setHeader], and the body given to [res.send]; what Express adds of
    its own is left out.  The two Japanese sentences and the two English
    ones the handlers send on failure are the constructors of [notice]. *)

Inductive notice : Type :=
| VideoIdRequired      (* "Video ID is required." *)
| NoValidUrl           (* "Failed to retrieve a valid HLS URL from all Invidious instances." *)
| ResolutionFailed     (* no instance gave a live stream URL *)
| ManifestFailed.      (* the content of the HLS manifest could not be fetched *)

Inductive payload : Type :=
| Message (n : notice)
| Content (v : json).

Inductive reply : Type :=
| Redirect (location : string)                     (* [res.redirect] *)
| Reply (status : N) (headers : list (string * string)) (body : payload).

(** [miniget(url, options)] read to its end: [Normal] of the text, or
    [Throw] when the call or the stream fails.  The options differ in the
    [User-Agent] header only. *)
Definition downloader : Type := json -> option string -> completion string.

(** What a handler does, in order. *)
Inductive server_event : Type :=
| Resolving (e : event)
| Downloaded (url : json) (agent : option string)
| LogManifest (url : json)
| LogManifestError (url : json) (message : string).

Definition manifestHeaders : list (string * string) :=
  [("Access-Control-Allow-Origin", "*");
   ("Access-Control-Allow-Methods", "GET, HEAD");
   ("Access-Control-Allow-Headers", "Content-Type");
   ("Content-Type", "application/vnd.apple.mpegurl")].

Definition urlHeaders : list (string * string) :=
  [("Access-Control-Allow-Origin", "*");
   ("Access-Control-Allow-Methods", "GET");
   ("Content-Type", "text/plain")].

(** [`${v}`], as the log lines of the handlers have it: the conversion of
    [v] to a string throws a [TypeError] for an object with a property
    [toString] of its own (no JSON value is callable, and [valueOf], own or
    inherited, gives no primitive value), and for an array that holds such
    an element ([Array.prototype.join] converts every element but [null]).
    Every other JSON value has a string form. *)
Fixpoint toStringThrows (v : json) : bool :=
  match v with
  | JObj fields =>
      existsb (fun field => String.eqb (fst field) "toString") fields
  | JArr items => existsb toStringThrows items
  | _ => false
  end.

(** The evaluation of a log line that holds [`${v}`]. *)
Definition template (v : json) : completion unit :=
  if toStringThrows v
  then Throw (TypeError "Cannot convert object to primitive value")
  else Normal tt.

Section Routes.

Variable url_resolve : string -> string -> option string.
Variable net : network.
Variable download : downloader.
Variable URL_parse : string -> option Whatwg.URL.
Variable host_parse : bool -> string -> option string.

(** [new URL(v)] for a value that is not a string: the constructor converts
    it to a string first; [None] when the conversion or the parser throws. *)
Variable URL_of_value : json -> option Whatwg.URL.

(** The configured instances ([INVIDIOUS_INSTANCES] in the source). *)
Variable instances : list string.

(** [replaceDomain] on what the resolver returned: the function above on a
    string; on another value the same steps, the [catch] clause returning
    the value itself. *)
Definition replaceDomainOf (hlsUrl : json) (newDomain : string) : json :=
  match hlsUrl with
  | JStr s => JStr (replaceDomain URL_parse host_parse s newDomain)
  | _ =>
      match URL_of_value hlsUrl with
      | Some parsedUrl =>
          JStr (Whatwg.serialize
                  (Whatwg.set_protocol
                     (Whatwg.set_hostname host_parse parsedUrl
                        (Js.replace_scheme newDomain))
                     "https:"))
      | None => hlsUrl
      end
  end.

(** [rewriteHlsManifest(manifestContent, baseUrl)] as the handler calls it,
    outside any [try]: a [baseUrl] that is not a string has no [substring]
    method, and the call throws. *)
Definition rewriteHlsManifestOf (manifestContent : string) (baseUrl : json)
  : completion string :=
  match baseUrl with
  | JStr u => Normal (rewriteHlsManifest url_resolve manifestContent u)
  | _ => Throw (TypeError "baseUrl.substring is not a function")
  end.

(** The handler of [GET /get/:id].  The [try] block downloads the manifest
    and writes a log line; the [catch] clause writes one and, nothing having
    been sent ([res.headersSent] is false), replies 500.  Both log lines
    hold [`${hlsUrl}`] ([`${finalHlsUrl}`] in [Relay]), so for a value with
    no string form the one of the [catch] clause throws in its turn, before
    any reply.  [Throw] is a rejected handler: no reply is sent.  As in the
    resolver, every awaited operation is taken to settle. *)
Definition getManifest (rev : revision) (videoId : string)
  : list server_event * completion reply :=
  if negb (Js.truthy_string videoId) then ([], Normal (Redirect "/"))
  else
    let (events, hlsUrl) :=
      getHlsUrlFromInvidious rev url_resolve net instances videoId in
    let resolving := map Resolving events in
    match hlsUrl with
    | Some url =>
        if negb (truthy hlsUrl)
        then (resolving, Normal (Reply 500 [] (Message ResolutionFailed)))
        else
          let finalHlsUrl :=
            match rev with
            | Relay => replaceDomainOf url TARGET_DOMAIN
            | ServerJs | Legacy => url
            end in
          let agent :=
            match rev with
            | Legacy => None
            | ServerJs | Relay => Some user_agent
            end in
          let downloaded := (resolving ++ [Downloaded finalHlsUrl agent])%list in
          let attempted :=
            manifestContent <- download finalHlsUrl agent ;;
            _ <- template finalHlsUrl ;;
            Normal manifestContent in
          match attempted with
          | Normal manifestContent =>
              ((downloaded ++ [LogManifest finalHlsUrl])%list,
               absoluteManifest <- rewriteHlsManifestOf manifestContent finalHlsUrl ;;
               Normal (Reply 200 manifestHeaders (Content (JStr absoluteManifest))))
          | Throw error =>
              match template finalHlsUrl with
              | Normal _ =>
                  ((downloaded
                    ++ [LogManifestError finalHlsUrl (message error)])%list,
                   Normal (Reply 500 manifestHeaders (Message ManifestFailed)))
              | Throw thrown => (downloaded, Throw thrown)
              end
          end
    | None => (resolving, Normal (Reply 500 [] (Message ResolutionFailed)))
    end.

(** The handler of [GET /get/url/:videoid] ([Relay]). *)
Definition getUrl (videoId : string) : list server_event * reply :=
  if negb (Js.truthy_string videoId)
  then ([], Reply 400 [] (Message VideoIdRequired))
  else
    let (events, hlsUrl) :=
      getHlsUrlFromInvidious Relay url_resolve net instances videoId in
    let resolving := map Resolving events in
    match hlsUrl with
    | Some url =>
        if negb (truthy hlsUrl)
        then (resolving, Reply 404 urlHeaders (Message NoValidUrl))
        else (resolving,
              Reply 200 urlHeaders (Content (replaceDomainOf url TARGET_DOMAIN)))
    | None => (resolving, Reply 404 urlHeaders (Message NoValidUrl))
    end.

End Routes.

(** The URLs a handler calls [miniget] with, in order, whether the download
    succeeds or fails. *)
Fixpoint downloads (events : list server_event) : list json :=
  match events with
  | [] => []
  | Downloaded url _ :: rest => url :: downloads rest
  | _ :: rest => downloads rest
  end.

(** Sample downloads: one that serves the manifest of the example, one that
    fails. *)
Definition serves_example : downloader :=
  fun _ _ => Normal example_manifest.

Definition unreachable_host : downloader :=
  fun _ _ => Throw (mkError "MinigetError" "Status code: 403").

(** What the [try] block of the resolver returns: in [Relay] a string that
    begins with [http] or is a resolution against the instance, in the
    other revisions a truthy value. *)
Definition returnable (rev : revision)
    (url_resolve : string -> string -> option string)
    (instance : string) (url : value) : Prop :=
  match rev with
  | Relay =>
      exists s,
        url = Some (JStr s)
        /\ (Js.startsWith s "http" = true
            \/ exists raw, url_resolve instance raw = Some s)
  | ServerJs | Legacy => truthy url = true
  end.

(** A resolver that throws on a reference holding a bracket and resolves
    every other one as the reference model does, and a manifest with such a
    reference among lines that pass through. *)
Definition bracket_strict_resolve (base ref : string) : option string :=
  if Js.includes ref "[" then None else node_url_resolve base ref.

Definition bracket_manifest : string :=
  Js.join Js.LF
    ["#EXTM3U"; "https://cdn.x/seg0.ts"; "ftp://[cdn/seg1.ts"; "";
     "#EXT-X-ENDLIST"].

(** The fields of a URL no setter of the address rewriter writes. *)
Definition sameRest (u u' : Whatwg.URL) : Prop :=
  Whatwg.username u' = Whatwg.username u
  /\ Whatwg.password u' = Whatwg.password u
  /\ Whatwg.path u' = Whatwg.path u
  /\ Whatwg.query u' = Whatwg.query u
  /\ Whatwg.fragment u' = Whatwg.fragment u.

(** * Theorems *)

(** ** Lines of a text: [split] and [join] *)

Section Lines.

Import Js.

Lemma split_not_nil (sep : ascii) (s : string) : split sep s <> [].
Proof.
  destruct s as [|c s]; simpl; [discriminate|].
  destruct (Ascii.eqb c sep); [discriminate|].
  destruct (split sep s); discriminate.
Qed.

Lemma join_cons (sep : ascii) (l : string) (ls : list string) :
  ls <> [] -> join sep (l :: ls) = l ++ String sep (join sep ls).
Proof.
  destruct ls; [congruence | reflexivity].
Qed.

(** Joining the lines of a text gives the text back. *)
Lemma join_split (sep : ascii) (s : string) : join sep (split sep s) = s.
Proof.
  induction s as [|c s IH]; [reflexivity|].
  simpl. destruct (Ascii.eqb_spec c sep) as [->|Hc].
  - rewrite join_cons by apply split_not_nil. simpl. now rewrite IH.
  - pose proof (split_not_nil sep s) as Hne.
    destruct (split sep s) as [|l ls]; [congruence|].
    destruct ls as [|l' ls].
    + simpl in *. now rewrite IH.
    + rewrite join_cons by discriminate.
      rewrite join_cons in IH by discriminate.
      rewrite <- IH. reflexivity.
Qed.

Lemma split_noLF (s : string) : Forall (fun l => noLF l = true) (split LF s).
Proof.
  induction s as [|c s IH]; simpl; [repeat constructor|].
  destruct (Ascii.eqb c LF) eqn:Hc.
  - constructor; [reflexivity | exact IH].
  - destruct (split LF s) as [|l ls]; [repeat constructor; simpl; now rewrite Hc|].
    inversion IH; subst. constructor; [simpl; now rewrite Hc | assumption].
Qed.

Lemma split_single (l : string) : noLF l = true -> split LF l = [l].
Proof.
  induction l as [|c l IH]; [reflexivity|].
  simpl. intros H. apply andb_prop in H as [Hc Hl].
  apply negb_true_iff in Hc. rewrite Hc, (IH Hl). reflexivity.
Qed.

Lemma split_line_then (l s : string) :
  noLF l = true -> split LF (l ++ String LF s) = l :: split LF s.
Proof.
  induction l as [|c l IH]; simpl; intros H.
  - reflexivity.
  - apply andb_prop in H as [Hc Hl].
    apply negb_true_iff in Hc. rewrite Hc, (IH Hl). reflexivity.
Qed.

(** Splitting the join of line-feed-free lines gives the lines back. *)
Lemma split_join (ls : list string) :
  ls <> [] -> Forall (fun l => noLF l = true) ls -> split LF (join LF ls) = ls.
Proof.
  induction ls as [|l ls IH]; [congruence|].
  intros _ H. inversion H as [|? ? Hl Hls]; subst.
  destruct ls as [|l' ls].
  - simpl. now apply split_single.
  - rewrite join_cons by discriminate.
    rewrite split_line_then by assumption.
    rewrite IH; [reflexivity | discriminate | assumption].
Qed.

(** The lines of two texts put together with a line feed. *)
Lemma split_then (a b : string) :
  Js.split Js.LF (a ++ String Js.LF b)
  = (Js.split Js.LF a ++ Js.split Js.LF b)%list.
Proof.
  induction a as [|c a IH]; [reflexivity|].
  cbn [append Js.split]. destruct (Ascii.eqb c Js.LF).
  - now rewrite IH.
  - rewrite IH. pose proof (split_not_nil Js.LF a) as Hne.
    destruct (Js.split Js.LF a); [congruence | reflexivity].
Qed.




End Lines.

(** ** The manifest rewriter *)

Section RewriterFacts.

Variable url_resolve : string -> string -> option string.

Lemma rewriteLine_passes (base line : string) :
  passesThrough line = true -> rewriteLine url_resolve base line = line.
Proof.
  unfold passesThrough, rewriteLine. intros H.
  destruct (Js.truthy_string (Js.trim line)); [|reflexivity].
  destruct (Js.startsWith line "#"); [reflexivity|].
  cbn [negb andb orb] in *. now rewrite H.
Qed.

Lemma rewriteLine_resolves (base line : string) :
  passesThrough line = false ->
  rewriteLine url_resolve base line
  = match url_resolve base (Js.trim line) with
    | Some resolved => resolved
    | None => line
    end.
Proof.
  unfold passesThrough, rewriteLine. intros H.
  destruct (Js.truthy_string (Js.trim line)); [|discriminate].
  destruct (Js.startsWith line "#"); [discriminate|].
  cbn [negb andb orb] in *. now rewrite H.
Qed.


End RewriterFacts.

(** C3: in the output of [rewriteHlsManifest] every blank line and every
    line that begins with [#] is the input line, and every other line is
    either the input line or the resolution of the reference (the line
    without its surrounding white space) against the base directory URL;
    on the manifest of the specification's example, [#EXTM3U] and
    [#EXT-X-ENDLIST] pass through and [seg0.ts] becomes
    [https://host/path/seg0.ts]. *)
Theorem rewrite_changes_only_references :
  (forall (url_resolve : string -> string -> option string) (m u : string),
     exists out : list string,
       rewriteHlsManifest url_resolve m u = Js.join Js.LF out
       /\ Forall2
            (fun line line' =>
               (Js.trim line = "" \/ Js.startsWith line "#" = true -> line' = line)
               /\ (line' = line
                   \/ url_resolve (manifestBase u) (Js.trim line) = Some line'))
            (Js.split Js.LF m) out)
  /\ manifestBase example_source = "https://host/path/"
  /\ rewriteHlsManifest node_url_resolve example_manifest example_source
     = example_rewritten.
Proof.
  split; [|split; reflexivity].
  intros url_resolve m u.
  exists (map (rewriteLine url_resolve (manifestBase u)) (Js.split Js.LF m)).
  split; [reflexivity|].
  induction (Js.split Js.LF m) as [|line ls IH]; constructor; [|exact IH].
  split.
  - intros [Hblank | Hdir]; apply rewriteLine_passes; unfold passesThrough.
    + now rewrite Hblank.
    + rewrite Hdir. now rewrite orb_true_r.
  - destruct (passesThrough line) eqn:Hp.
    + left. now apply rewriteLine_passes.
    + rewrite (rewriteLine_resolves _ _ _ Hp).
      destruct (url_resolve (manifestBase u) (Js.trim line)); [now right | now left].
Qed.

(** C4, as amended: the output of [rewriteHlsManifest] has as many lines
    as the manifest, the i-th being the rewritten i-th line, provided the
    resolver gives no text with a line feed in it for a line of the
    manifest. *)
Theorem rewrite_preserves_line_count
    (url_resolve : string -> string -> option string) (m u : string) :
  (forall line resolved,
     In line (Js.split Js.LF m) ->
     url_resolve (manifestBase u) (Js.trim line) = Some resolved ->
     Js.noLF resolved = true) ->
  lineCount (rewriteHlsManifest url_resolve m u) = lineCount m
  /\ Js.split Js.LF (rewriteHlsManifest url_resolve m u)
     = map (rewriteLine url_resolve (manifestBase u)) (Js.split Js.LF m).
Proof.
  intros Hres.
  assert (Hsplit : Js.split Js.LF (rewriteHlsManifest url_resolve m u)
                   = map (rewriteLine url_resolve (manifestBase u))
                       (Js.split Js.LF m)).
  { unfold rewriteHlsManifest. apply split_join.
    - pose proof (split_not_nil Js.LF m).
      destruct (Js.split Js.LF m); [congruence | discriminate].
    - apply Forall_map, Forall_forall. intros line Hin.
      pose proof (proj1 (Forall_forall _ _) (split_noLF m) line Hin) as Hline.
      destruct (passesThrough line) eqn:Hp.
      + now rewrite rewriteLine_passes.
      + rewrite rewriteLine_resolves by assumption.
        destruct (url_resolve (manifestBase u) (Js.trim line)) eqn:Hr;
          [now apply (Hres line) | assumption]. }
  split; [|exact Hsplit].
  unfold lineCount. rewrite Hsplit. apply length_map.
Qed.

Lemma rewrite_preserves_line_count_example :
  lineCount (rewriteHlsManifest node_url_resolve example_manifest example_source)
  = 4%nat
  /\ Js.split Js.LF (rewriteHlsManifest node_url_resolve example_manifest example_source)
     = ["#EXTM3U"; "https://host/path/seg0.ts"; "https://cdn.x/seg1.ts";
        "#EXT-X-ENDLIST"].
Proof.
  apply (rewrite_preserves_line_count node_url_resolve example_manifest example_source).
  intros line resolved Hin Hres.
  simpl in Hin.
  destruct Hin as [<- | [<- | [<- | [<- | []]]]];
    vm_compute in Hres; injection Hres as <-; reflexivity.
Defined.

(** C4, as stated, fails: [url.resolve] does not escape what follows the
    scheme [javascript:], so a line feed in such a source URL reaches the
    resolved reference, and the one-line manifest [seg] comes out as two
    lines. *)
Lemma rewrite_adds_line :
  let u := String.append "javascript:x" (String Js.LF "y/z") in
  lineCount "seg" = 1%nat
  /\ node_url_resolve (manifestBase u) "seg"
     = Some (String.append "javascript:x" (String Js.LF "y/seg"))
  /\ Js.split Js.LF (rewriteHlsManifest node_url_resolve "seg" u)
     = ["javascript:x"; "y/seg"]
  /\ lineCount (rewriteHlsManifest node_url_resolve "seg" u) <> lineCount "seg".
Proof.
  repeat split; try reflexivity.
  vm_compute. discriminate.
Qed.




(** ** White space and line classification *)

Lemma startsWith_app (p q s : string) :
  Js.startsWith s (p ++ q) = true -> Js.startsWith s p = true.
Proof.
  revert s. induction p as [|a p IH]; intros s; [reflexivity|].
  destruct s as [|b s]; [discriminate|].
  change (Ascii.eqb a b && Js.startsWith s (p ++ q) = true
          -> Ascii.eqb a b && Js.startsWith s p = true).
  intros H. apply andb_prop in H as [Hab Hs].
  now rewrite Hab, (IH s Hs).
Qed.

Lemma whiteSpace_cases (c : ascii) :
  Js.isWhiteSpace c = true ->
  In c (map ascii_of_N [9; 10; 11; 12; 13; 32; 160]%N).
Proof.
  unfold Js.isWhiteSpace. intros H.
  apply existsb_exists in H as (n & Hin & Hn).
  apply N.eqb_eq in Hn. rewrite <- (ascii_N_embedding c), Hn.
  now apply in_map.
Qed.

(** A white space character starts none of the prefixes the rewriter
    looks for. *)
Lemma whiteSpace_starts_nothing (c : ascii) (s : string) :
  Js.isWhiteSpace c = true ->
  Js.startsWith (String c s) "#" = false
  /\ Js.startsWith (String c s) "http://" = false
  /\ Js.startsWith (String c s) "https://" = false
  /\ Js.startsWith (String c s) "//" = false.
Proof.
  intros H. apply whiteSpace_cases in H. simpl in H.
  repeat destruct H as [<- | H]; try contradiction; repeat split; reflexivity.
Qed.

Lemma trimStart_whiteSpace (ws s : string) :
  allWhiteSpace ws = true -> Js.trimStart (ws ++ s) = Js.trimStart s.
Proof.
  induction ws as [|c ws IH]; simpl; [reflexivity|].
  intros H. apply andb_prop in H as [Hc Hws]. rewrite Hc. now apply IH.
Qed.

Lemma trimEnd_keeps_head (c : ascii) (s : string) :
  Js.isWhiteSpace c = false ->
  exists t, Js.trimEnd (String c s) = String c t.
Proof.
  intros Hc. simpl. destruct (Js.trimEnd s) as [|d t].
  - rewrite Hc. now exists EmptyString.
  - now exists (String d t).
Qed.

Lemma trim_whiteSpace (ws : string) : allWhiteSpace ws = true -> Js.trim ws = "".
Proof.
  unfold Js.trim.
  induction ws as [|c ws IH]; [reflexivity|].
  simpl. intros H. apply andb_prop in H as [Hc Hws]. rewrite Hc. now apply IH.
Qed.

(** The trimmed form of white space followed by [#] begins with [#]. *)
Lemma trim_indented_directive (ws rest : string) :
  allWhiteSpace ws = true ->
  exists t, Js.trim (ws ++ String "#" rest) = String "#" t.
Proof.
  intros H. unfold Js.trim. rewrite trimStart_whiteSpace by assumption.
  change (Js.trimStart (String "#" rest)) with (String "#" rest).
  now apply trimEnd_keeps_head.
Qed.

(** C10, as amended: classification uses the untrimmed line.  White space
    followed by [#] is a reference: the line becomes the resolution of its
    trimmed content, which begins with [#], against the base (and stays as
    it is when the resolution throws).  So does every line that is not
    blank and begins with none of [#], [http://], [https://], [//]: the
    resolver gets the line without its surrounding white space.  A line of
    white space only, and a line that begins with [http://], [https://] or
    [//], pass through as they are, trailing white space included. *)
Theorem rewrite_classifies_untrimmed
    (url_resolve : string -> string -> option string) (base : string) :
  (forall c ws rest,
     allWhiteSpace (String c ws) = true ->
     let line := String c ws ++ String "#" rest in
     Js.startsWith (Js.trim line) "#" = true
     /\ rewriteLine url_resolve base line
        = match url_resolve base (Js.trim line) with
          | Some resolved => resolved
          | None => line
          end)
  /\ (forall line,
        passesThrough line = false ->
        rewriteLine url_resolve base line
        = match url_resolve base (Js.trim line) with
          | Some resolved => resolved
          | None => line
          end)
  /\ (forall line,
        allWhiteSpace line = true -> rewriteLine url_resolve base line = line)
  /\ (forall line,
        Js.startsWith line "http://" || Js.startsWith line "https://"
        || Js.startsWith line "//" = true ->
        rewriteLine url_resolve base line = line).
Proof.
  split; [|split; [|split]].
  - intros c ws rest H line.
    destruct (trim_indented_directive (String c ws) rest H) as [t Ht].
    split.
    + subst line. rewrite Ht. reflexivity.
    + apply rewriteLine_resolves. unfold passesThrough. subst line.
      rewrite Ht. simpl in H. apply andb_prop in H as [Hc _].
      change (String c ws ++ String "#" rest)
        with (String c (ws ++ String "#" rest)).
      destruct (whiteSpace_starts_nothing c (ws ++ String "#" rest) Hc)
        as (-> & -> & -> & ->).
      reflexivity.
  - intros line Hp. now apply rewriteLine_resolves.
  - intros line Hws. apply rewriteLine_passes. unfold passesThrough.
    now rewrite (trim_whiteSpace line Hws).
  - intros line Habs. apply rewriteLine_passes. unfold passesThrough.
    rewrite <- !orb_assoc. rewrite <- !orb_assoc in Habs. rewrite Habs.
    now rewrite !orb_true_r.
Qed.

(** C10, as stated, fails: a reference that begins with [https://] keeps
    its trailing white space (here a carriage return), where the claim has
    it stripped. *)
Lemma rewrite_keeps_trailing_space :
  let line := String.append "https://cdn.x/seg1.ts" (String "013" EmptyString) in
  Js.trim line = "https://cdn.x/seg1.ts"
  /\ rewriteLine node_url_resolve "https://host/path/" line = line
  /\ node_url_resolve "https://host/path/" (Js.trim line)
     = Some "https://cdn.x/seg1.ts"
  /\ rewriteLine node_url_resolve "https://host/path/" line
     <> "https://cdn.x/seg1.ts".
Proof.
  repeat split; try reflexivity.
  vm_compute. discriminate.
Qed.

(** ** The provider resolver: control flow *)

Section ResolverFlow.

Variable rev : revision.
Variable url_resolve : string -> string -> option string.
Variable net : network.
Variable videoId : string.

Local Abbreviation attempt' := (attempt rev url_resolve net).
Local Abbreviation resolveFrom' := (resolveFrom rev url_resolve net).

(** An iteration whose [try] block returns ends the loop. *)
Lemma resolveFrom_returns (n : nat) (instance : string) (rest : list string)
    (url : value) :
  attempt' n instance videoId = Normal (Some url) ->
  resolveFrom' n (instance :: rest) videoId
  = ([LogTrying instance; Fetched n (apiRequest rev instance videoId);
      LogSuccess instance], url).
Proof.
  simpl. now intros ->.
Qed.

(** Any other iteration logs one diagnostic and goes on with the next
    instance. *)
Lemma resolveFrom_continues (n : nat) (instance : string) (rest : list string) :
  producesUrl (attempt' n instance videoId) = false ->
  exists diagnostic,
    isDiagnostic instance diagnostic
    /\ resolveFrom' n (instance :: rest) videoId
       = (LogTrying instance :: Fetched n (apiRequest rev instance videoId)
            :: diagnostic :: fst (resolveFrom' (S n) rest videoId),
          snd (resolveFrom' (S n) rest videoId)).
Proof.
  unfold isDiagnostic. simpl.
  destruct (attempt rev url_resolve net n instance videoId) as [[url|]|e];
    [discriminate| |]; intros _;
    destruct (resolveFrom rev url_resolve net (S n) rest videoId) as [events result].
  - exists (LogNoUrl instance). auto.
  - destruct (String.eqb (name e) "AbortError");
      eexists; (split; [|reflexivity]); eauto.
Qed.

(** The failure modes are exactly the iterations that return nothing. *)
Lemma failure_iff_no_url (n : nat) (instance : string) :
  endpoint_failure rev url_resolve instance
    (net n (apiRequest rev instance videoId))
  <-> producesUrl (attempt' n instance videoId) = false.
Proof.
  unfold attempt.
  destruct (net n (apiRequest rev instance videoId)) as [r|e]; simpl.
  - destruct (ok r) eqn:Hok; simpl.
    + destruct (json_body r) as [videoInfo|e] eqn:Hbody; simpl.
      * destruct (extract rev url_resolve instance videoInfo)
          as [[url|]|e] eqn:Hex; simpl; split; intros H;
          try discriminate; try reflexivity.
        -- inversion H; subst; congruence.
        -- eapply NoStreamUrl; eauto.
        -- eapply UnreadableBody; eauto.
      * split; [reflexivity|]. intros _. eapply UnparseableBody; eauto.
    + split; [reflexivity|]. intros _. now apply BadStatus.
  - split; [reflexivity|]. intros _.
    destruct (String.eqb_spec (name e) "AbortError").
    + now apply TimedOut.
    + now apply NetworkFailure.
Qed.

Lemma queries_continue (n : nat) (instance : string) (d : event)
    (events : list event) :
  isDiagnostic instance d ->
  queries (LogTrying instance :: Fetched n (apiRequest rev instance videoId)
             :: d :: events)
  = apiRequest rev instance videoId :: queries events.
Proof.
  intros [-> | [-> | [msg ->]]]; reflexivity.
Qed.

(** The loop, started at any iteration, in front of the first endpoint
    that gives a URL. *)
Lemma resolveFrom_first_success (pre : list string) :
  forall (n : nat) (instance : string) (post : list string) (url : value),
    (forall j inst,
       nth_error pre j = Some inst ->
       producesUrl (attempt' (n + j) inst videoId) = false) ->
    attempt' (n + List.length pre) instance videoId = Normal (Some url) ->
    snd (resolveFrom' n (pre ++ instance :: post) videoId) = url
    /\ queries (fst (resolveFrom' n (pre ++ instance :: post) videoId))
       = map (fun i => apiRequest rev i videoId) (pre ++ [instance]).
Proof.
  induction pre as [|p pre IH]; intros n instance post url Hpre Hk.
  - cbn [app List.length] in *. rewrite Nat.add_0_r in Hk.
    rewrite (resolveFrom_returns _ _ _ _ Hk). now split.
  - simpl app.
    assert (Hp : producesUrl (attempt' n p videoId) = false).
    { specialize (Hpre 0%nat p eq_refl). now rewrite Nat.add_0_r in Hpre. }
    destruct (resolveFrom_continues n p (pre ++ instance :: post) Hp)
      as (d & Hd & ->).
    cbn [fst snd]. rewrite queries_continue by assumption.
    destruct (IH (S n) instance post url) as [Hres Hq].
    + intros j inst Hj. rewrite Nat.add_succ_comm. now apply (Hpre (S j)).
    + cbn [List.length] in Hk. now rewrite Nat.add_succ_comm.
    + split; [exact Hres|]. cbn [app map]. now rewrite Hq.
Qed.

(** The loop over endpoints that all fail. *)
Lemma resolveFrom_all_fail (instances : list string) :
  forall n : nat,
    (forall j inst,
       nth_error instances j = Some inst ->
       producesUrl (attempt' (n + j) inst videoId) = false) ->
    snd (resolveFrom' n instances videoId) = Some JNull
    /\ queries (fst (resolveFrom' n instances videoId))
       = map (fun i => apiRequest rev i videoId) instances.
Proof.
  induction instances as [|p instances IH]; intros n Hall.
  - now split.
  - assert (Hp : producesUrl (attempt' n p videoId) = false).
    { specialize (Hall 0%nat p eq_refl). now rewrite Nat.add_0_r in Hall. }
    destruct (resolveFrom_continues n p instances Hp) as (d & Hd & ->).
    cbn [fst snd]. rewrite queries_continue by assumption.
    destruct (IH (S n)) as [Hres Hq].
    + intros j inst Hj. rewrite Nat.add_succ_comm. now apply (Hall (S j)).
    + split; [exact Hres|]. cbn [map]. now rewrite Hq.
Qed.

End ResolverFlow.

(** C1: when the endpoint after [pre] is the first whose query yields a
    usable stream URL, [getHlsUrlFromInvidious] returns that URL, and its
    queries are those of the endpoints up to and including that one, in
    list order: none of [post] is queried. *)
Theorem resolver_stops_at_first_success
    (rev : revision) (url_resolve : string -> string -> option string)
    (net : network) (videoId : string)
    (pre : list string) (instance : string) (post : list string) (url : value) :
  (forall j inst,
     nth_error pre j = Some inst ->
     producesUrl (attempt rev url_resolve net j inst videoId) = false) ->
  attempt rev url_resolve net (List.length pre) instance videoId
  = Normal (Some url) ->
  snd (getHlsUrlFromInvidious rev url_resolve net (pre ++ instance :: post) videoId)
  = url
  /\ queries
       (fst (getHlsUrlFromInvidious rev url_resolve net
               (pre ++ instance :: post) videoId))
     = map (fun i => apiRequest rev i videoId) (pre ++ [instance]).
Proof.
  intros Hpre Hk. unfold getHlsUrlFromInvidious.
  apply resolveFrom_first_success; [|exact Hk].
  intros j inst Hj. now apply Hpre.
Qed.

(** The specification's example: providers 1 and 2 time out, provider 3
    answers; three queries, and the URL of provider 3. *)
Lemma resolver_stops_at_first_success_example :
  snd (getHlsUrlFromInvidious ServerJs node_url_resolve third_answers
         three_providers "dQw4w9WgXcQ")
  = Some (JStr "https://p3.example/live/index.m3u8")
  /\ queries
       (fst (getHlsUrlFromInvidious ServerJs node_url_resolve third_answers
               three_providers "dQw4w9WgXcQ"))
     = map (fun i => apiRequest ServerJs i "dQw4w9WgXcQ") three_providers.
Proof.
  apply (resolver_stops_at_first_success ServerJs node_url_resolve third_answers
           "dQw4w9WgXcQ" ["https://p1.example"; "https://p2.example"]
           "https://p3.example" []).
  - intros [|[|[|j]]] inst Hj; simpl in Hj; try discriminate; reflexivity.
  - reflexivity.
Defined.

(** C2: each failure mode of an endpoint (network failure, timeout, status
    outside 200..299, unparseable body, no stream URL in the body, a body
    the resolver cannot read) has the same effect on the loop: one
    diagnostic is logged and the loop goes on with the next endpoint, the
    result being that of the rest of the list; and when every endpoint
    fails, [getHlsUrlFromInvidious] has queried each of them once, in order,
    and returns [null].  The function has no exceptional outcome. *)
Theorem resolver_folds_failures
    (rev : revision) (url_resolve : string -> string -> option string)
    (net : network) (videoId : string) :
  (forall n instance rest,
     endpoint_failure rev url_resolve instance
       (net n (apiRequest rev instance videoId)) ->
     exists diagnostic,
       isDiagnostic instance diagnostic
       /\ resolveFrom rev url_resolve net n (instance :: rest) videoId
          = (LogTrying instance :: Fetched n (apiRequest rev instance videoId)
               :: diagnostic
               :: fst (resolveFrom rev url_resolve net (S n) rest videoId),
             snd (resolveFrom rev url_resolve net (S n) rest videoId)))
  /\ (forall instances,
        (forall n instance,
           nth_error instances n = Some instance ->
           endpoint_failure rev url_resolve instance
             (net n (apiRequest rev instance videoId))) ->
        snd (getHlsUrlFromInvidious rev url_resolve net instances videoId)
        = Some JNull
        /\ queries
             (fst (getHlsUrlFromInvidious rev url_resolve net instances videoId))
           = map (fun i => apiRequest rev i videoId) instances).
Proof.
  split.
  - intros n instance rest Hfail.
    apply resolveFrom_continues. now apply failure_iff_no_url.
  - intros instances Hall. unfold getHlsUrlFromInvidious.
    apply resolveFrom_all_fail. intros j inst Hj.
    apply failure_iff_no_url. now apply Hall.
Qed.

(** Five endpoints, five ways to fail: all are queried, [null] is
    returned. *)
Lemma resolver_folds_failures_trace :
  getHlsUrlFromInvidious Relay node_url_resolve all_fail
    (firstn 5 INVIDIOUS_INSTANCES) "dQw4w9WgXcQ"
  = ([LogTrying "https://invidious.f5.si";
      Fetched 0 (apiRequest Relay "https://invidious.f5.si" "dQw4w9WgXcQ");
      LogFailure "https://invidious.f5.si" "getaddrinfo ENOTFOUND";
      LogTrying "https://yt.omada.cafe";
      Fetched 1 (apiRequest Relay "https://yt.omada.cafe" "dQw4w9WgXcQ");
      LogTimeout "https://yt.omada.cafe";
      LogTrying "https://inv.perditum.com";
      Fetched 2 (apiRequest Relay "https://inv.perditum.com" "dQw4w9WgXcQ");
      LogFailure "https://inv.perditum.com" "HTTP error: 503";
      LogTrying "https://iv.melmac.space";
      Fetched 3 (apiRequest Relay "https://iv.melmac.space" "dQw4w9WgXcQ");
      LogFailure "https://iv.melmac.space" "Unexpected token";
      LogTrying "https://invidious.nikkosphere.com";
      Fetched 4 (apiRequest Relay "https://invidious.nikkosphere.com" "dQw4w9WgXcQ");
      LogNoUrl "https://invidious.nikkosphere.com"],
     Some JNull).
Proof.
  reflexivity.
Qed.

Lemma resolver_folds_failures_example :
  snd (getHlsUrlFromInvidious Relay node_url_resolve all_fail
         (firstn 5 INVIDIOUS_INSTANCES) "dQw4w9WgXcQ")
  = Some JNull
  /\ queries
       (fst (getHlsUrlFromInvidious Relay node_url_resolve all_fail
               (firstn 5 INVIDIOUS_INSTANCES) "dQw4w9WgXcQ"))
     = map (fun i => apiRequest Relay i "dQw4w9WgXcQ")
         (firstn 5 INVIDIOUS_INSTANCES).
Proof.
  apply (proj2 (resolver_folds_failures Relay node_url_resolve all_fail
                  "dQw4w9WgXcQ")).
  intros [|[|[|[|[|[|n]]]]]] instance Hn; cbv in Hn;
    try discriminate; injection Hn as <-.
  - apply NetworkFailure. discriminate.
  - now apply TimedOut.
  - now apply BadStatus.
  - now eapply UnparseableBody.
  - now eapply NoStreamUrl.
Defined.

(** ** The provider resolver: reading the response *)

Section ResolverReading.

Variable rev : revision.
Variable url_resolve : string -> string -> option string.

Lemma extract_rawUrl (instance : string) (videoInfo : json) :
  extract rev url_resolve instance videoInfo
  = (hlsUrl <- rawUrl rev videoInfo ;;
     if truthy hlsUrl then
       hlsUrl <- absolutize rev url_resolve instance hlsUrl ;;
       Normal (Some hlsUrl)
     else Normal None).
Proof.
  unfold extract, rawUrl.
  destruct (selectFormats videoInfo) as [formats|e]; [|reflexivity]. simpl.
  destruct (findHlsFormat formats) as [hlsFormat|e]; reflexivity.
Qed.

(** On a readable element the callback computes [matchesHls]. *)
Lemma isHlsFormat_readable (f : json) :
  readable f = true -> isHlsFormat f = Normal (matchesHls f).
Proof.
  unfold isHlsFormat, matchesHls, readable.
  destruct f as [| | | | |fields]; try reflexivity; try discriminate.
  simpl. destruct (strictEquals (lookup "container" fields) HLS_FORMAT_NAME);
    [reflexivity|].
  destruct (lookup "qualityLabel" fields) as [[|b|n|s|items|fs]|];
    simpl; try reflexivity; try discriminate.
  - now destruct b.
  - now destruct (n =? 0)%Z.
  - destruct s; reflexivity.
Qed.

(** On a list of readable elements [find] returns the first that matches. *)
Lemma find_readable (items : list json) :
  Forall (fun f => readable f = true) items ->
  find items = Normal (List.find matchesHls items).
Proof.
  induction 1 as [|f items Hf _ IH]; [reflexivity|].
  simpl. rewrite (isHlsFormat_readable f Hf). simpl.
  destruct (matchesHls f); [reflexivity | exact IH].
Qed.

Lemma matchesHls_truthy (f : json) : matchesHls f = true -> truthy (Some f) = true.
Proof.
  destruct f; simpl; congruence.
Qed.

Lemma matchesHls_found (f : json) :
  matchesHls f = true -> isHlsFormat f = Normal true.
Proof.
  unfold matchesHls, isHlsFormat.
  destruct f as [| | | | |fields]; try discriminate.
  cbn [get bind].
  destruct (strictEquals (lookup "container" fields) HLS_FORMAT_NAME);
    [reflexivity|].
  cbn [orb].
  destruct (lookup "qualityLabel" fields) as [[| | |s| |]|]; try discriminate.
  intros Hs. rewrite Hs.
  destruct s; [discriminate | reflexivity].
Qed.

Lemma find_skips (pre rest : list json) :
  Forall (fun f => readable f = true /\ matchesHls f = false) pre ->
  find (pre ++ rest) = find rest.
Proof.
  induction 1 as [|f pre [Hr Hm] _ IH]; [reflexivity|].
  cbn [app find]. rewrite (isHlsFormat_readable f Hr), Hm. exact IH.
Qed.

(** On an element that is not readable and does not match, the callback
    throws. *)
Lemma isHlsFormat_unreadable (f : json) :
  readable f = false -> matchesHls f = false ->
  exists e, isHlsFormat f = Throw e.
Proof.
  unfold isHlsFormat, matchesHls, readable.
  destruct f as [| | | | |fields]; try discriminate.
  - intros _ _. eexists. reflexivity.
  - cbn [get bind].
    destruct (strictEquals (lookup "container" fields) HLS_FORMAT_NAME);
      [discriminate|].
    destruct (lookup "qualityLabel" fields) as [[|b|n|s|items|fs]|];
      try discriminate; cbn [truthy negb]; intros Hr _.
    + apply negb_false_iff in Hr. rewrite Hr. eexists. reflexivity.
    + apply negb_false_iff in Hr. rewrite Hr. eexists. reflexivity.
    + eexists. reflexivity.
    + eexists. reflexivity.
Qed.

End ResolverReading.

(** C7, as amended: when the format list the resolver reads (the value of
    [formatStreams], else of [adaptiveFormats], else the empty list) is an
    array, the search goes through it in order and skips the elements that
    are readable and do not match.  If the first element it does not skip
    matches (its container equals [hls], or its quality label is a text
    that in lower case contains [hls]), that descriptor is selected and the
    URL is its [url], whatever follows it.  If every element is skipped,
    [ServerJs] and [Relay] fall back to the top-level [hlsUrl] of the
    response, and [Legacy] has no URL ([null]).  If the first element not
    skipped does not match and is not readable ([null], or a truthy quality
    label that is not a text), the endpoint fails, and so it does when the
    format list is not an array; there is no fallback then.  The resolver
    goes on with the URL found: it returns it, made absolute in [Relay],
    when it is truthy. *)
Theorem resolver_selects_hls_format
    (rev : revision) (url_resolve : string -> string -> option string)
    (instance : string) (videoInfo : json) (formats : value) :
  selectFormats videoInfo = Normal formats ->
  (forall items,
     formats = Some (JArr items) ->
     (forall pre f rest,
        items = (pre ++ f :: rest)%list ->
        Forall (fun g => readable g = true /\ matchesHls g = false) pre ->
        (matchesHls f = true ->
         findHlsFormat formats = Normal (Some f)
         /\ rawUrl rev videoInfo = get (Some f) "url")
        /\ (matchesHls f = false ->
            readable f = false ->
            exists e,
              findHlsFormat formats = Throw e
              /\ extract rev url_resolve instance videoInfo = Throw e))
     /\ (Forall (fun g => readable g = true /\ matchesHls g = false) items ->
         findHlsFormat formats = Normal None
         /\ rawUrl rev videoInfo
            = match rev with
              | Legacy => Normal (Some JNull)
              | ServerJs | Relay => get (Some videoInfo) "hlsUrl"
              end))
  /\ ((forall items, formats <> Some (JArr items)) ->
      extract rev url_resolve instance videoInfo
      = Throw (TypeError "formats.find is not a function"))
  /\ extract rev url_resolve instance videoInfo
     = (hlsUrl <- rawUrl rev videoInfo ;;
        if truthy hlsUrl then
          hlsUrl <- absolutize rev url_resolve instance hlsUrl ;;
          Normal (Some hlsUrl)
        else Normal None).
Proof.
  intros Hsel. split; [|split].
  - intros items ->. split.
    + intros pre f rest -> Hpre. cbn [findHlsFormat].
      rewrite (find_skips pre (f :: rest) Hpre). cbn [find]. split.
      * intros Hf. unfold rawUrl. rewrite Hsel. cbn [bind findHlsFormat].
        rewrite (find_skips pre (f :: rest) Hpre). cbn [find].
        rewrite (matchesHls_found f Hf). cbn [bind].
        split; [reflexivity|]. unfold chooseUrl.
        now rewrite (matchesHls_truthy f Hf).
      * intros Hm Hr.
        destruct (isHlsFormat_unreadable f Hr Hm) as [e He].
        exists e. rewrite He. split; [reflexivity|].
        unfold extract. rewrite Hsel. cbn [bind findHlsFormat].
        rewrite (find_skips pre (f :: rest) Hpre). cbn [find].
        now rewrite He.
    + intros Hall.
      assert (Hfind : find items = Normal None).
      { rewrite <- (app_nil_r items). now rewrite (find_skips items [] Hall). }
      cbn [findHlsFormat]. split; [exact Hfind|].
      unfold rawUrl. rewrite Hsel. cbn [bind findHlsFormat].
      rewrite Hfind. reflexivity.
  - intros Hshape. unfold extract. rewrite Hsel. cbn [bind].
    destruct formats as [[| | | |items|]|]; try reflexivity.
    now destruct (Hshape items).
  - apply extract_rawUrl.
Qed.

(** The response [mixed_body]: the search skips the MP4 descriptor and
    selects the HLS descriptor, the number in its quality label and the
    [null] behind it notwithstanding; the URL is the descriptor's, not the
    top-level [hlsUrl]. *)
Lemma resolver_selects_hls_format_example :
  findHlsFormat (Some (JArr [mp4_descriptor; hls_descriptor; JNull]))
  = Normal (Some hls_descriptor)
  /\ rawUrl ServerJs mixed_body = get (Some hls_descriptor) "url".
Proof.
  refine (proj1
            (proj1
               (proj1
                  (resolver_selects_hls_format ServerJs node_url_resolve
                     "https://p3.example" mixed_body
                     (Some (JArr [mp4_descriptor; hls_descriptor; JNull]))
                     eq_refl)
                  [mp4_descriptor; hls_descriptor; JNull] eq_refl)
               [mp4_descriptor] hls_descriptor [JNull] eq_refl _)
            eq_refl).
  repeat constructor.
Defined.

(** C7, as stated, fails: a response whose only descriptor has the numeric
    quality label 720 holds no matching descriptor and has an [hlsUrl], yet
    no revision falls back to it (reading the label throws, and the
    endpoint counts as failed); and [Legacy] has no fallback at all. *)
Lemma resolver_fallback_not_taken :
  existsb matchesHls [JObj [("qualityLabel", JNum 720)]] = false
  /\ get (Some numeric_label_body) "hlsUrl"
     = Normal (Some (JStr "https://p3.example/live/index.m3u8"))
  /\ (forall rev,
        extract rev node_url_resolve "https://p3.example" numeric_label_body
        = Throw (TypeError "f.qualityLabel.toLowerCase is not a function"))
  /\ (forall rev,
        snd (getHlsUrlFromInvidious rev node_url_resolve
               (always numeric_label_body) ["https://p3.example"] "dQw4w9WgXcQ")
        = Some JNull)
  /\ extract Legacy node_url_resolve "https://p3.example" direct_url_body
     = Normal None.
Proof.
  repeat split; try reflexivity; intros []; reflexivity.
Qed.

(** C6, as amended: a usable URL that is a text not beginning with [http]
    is, in [Relay], replaced by its resolution against the base URL of the
    endpoint that produced it (the endpoint fails when the resolution
    throws); [ServerJs] and [Legacy] return it as it is.  A URL that begins
    with [http://] or [https://] is returned as it is by all three. *)
Theorem resolver_absolutizes_relative
    (rev : revision) (url_resolve : string -> string -> option string)
    (instance : string) (videoInfo : json) (s : string) :
  rawUrl rev videoInfo = Normal (Some (JStr s)) ->
  s <> "" ->
  (Js.startsWith s "http" = false ->
   extract rev url_resolve instance videoInfo
   = match rev with
     | Relay =>
         match url_resolve instance s with
         | Some resolved => Normal (Some (Some (JStr resolved)))
         | None => Throw (TypeError "Invalid URL")
         end
     | ServerJs | Legacy => Normal (Some (Some (JStr s)))
     end)
  /\ (Js.startsWith s "http://" || Js.startsWith s "https://" = true ->
      extract rev url_resolve instance videoInfo
      = Normal (Some (Some (JStr s)))).
Proof.
  intros Hraw Hs. rewrite extract_rawUrl, Hraw. simpl.
  assert (Ht : Js.truthy_string s = true) by (destruct s; [congruence | reflexivity]).
  rewrite Ht. unfold absolutize. split.
  - intros Hrel. destruct rev; try reflexivity.
    rewrite Hrel. simpl. destruct (url_resolve instance s); reflexivity.
  - intros Habs.
    assert (Hhttp : Js.startsWith s "http" = true).
    { apply orb_prop in Habs as [H | H].
      - now apply (startsWith_app "http" "://").
      - now apply (startsWith_app "http" "s://"). }
    destruct rev; try reflexivity. now rewrite Hhttp.
Qed.

Lemma resolver_absolutizes_relative_example :
  (Js.startsWith "/api/manifest/hls_variant/abc.m3u8" "http" = false ->
   extract Relay node_url_resolve "https://invidious.f5.si" relative_url_body
   = Normal (Some (Some
       (JStr "https://invidious.f5.si/api/manifest/hls_variant/abc.m3u8"))))
  /\ (Js.startsWith "/api/manifest/hls_variant/abc.m3u8" "http://"
      || Js.startsWith "/api/manifest/hls_variant/abc.m3u8" "https://" = true ->
      extract Relay node_url_resolve "https://invidious.f5.si" relative_url_body
      = Normal (Some (Some (JStr "/api/manifest/hls_variant/abc.m3u8")))).
Proof.
  apply (resolver_absolutizes_relative Relay node_url_resolve
           "https://invidious.f5.si" relative_url_body
           "/api/manifest/hls_variant/abc.m3u8").
  - reflexivity.
  - discriminate.
Defined.

(** C6, as stated, fails: [src/server.js] returns the relative URL of the
    response as it is, not its resolution against the endpoint. *)
Lemma resolver_returns_relative_url :
  snd (getHlsUrlFromInvidious ServerJs node_url_resolve
         (always relative_url_body) ["https://invidious.f5.si"] "dQw4w9WgXcQ")
  = Some (JStr "/api/manifest/hls_variant/abc.m3u8")
  /\ node_url_resolve "https://invidious.f5.si" "/api/manifest/hls_variant/abc.m3u8"
     = Some "https://invidious.f5.si/api/manifest/hls_variant/abc.m3u8"
  /\ snd (getHlsUrlFromInvidious ServerJs node_url_resolve
            (always relative_url_body) ["https://invidious.f5.si"] "dQw4w9WgXcQ")
     <> Some (JStr "https://invidious.f5.si/api/manifest/hls_variant/abc.m3u8").
Proof.
  repeat split; try reflexivity.
  vm_compute. discriminate.
Qed.

(** C9: when [formatStreams] is present and truthy (an empty array
    included), the format list is its value and [adaptiveFormats] is not
    consulted: a response that differs in [adaptiveFormats] only gives the
    same outcome.  [adaptiveFormats] is read only when [formatStreams] is
    absent or falsy. *)
Theorem formatStreams_shadows_adaptiveFormats
    (rev : revision) (url_resolve : string -> string -> option string)
    (instance : string) (fields : list (string * json)) :
  (forall (formatStreams : json) (fields' : list (string * json)),
     lookup "formatStreams" fields = Some formatStreams ->
     truthy (Some formatStreams) = true ->
     (forall key,
        key <> "adaptiveFormats" -> lookup key fields' = lookup key fields) ->
     selectFormats (JObj fields) = Normal (Some formatStreams)
     /\ extract rev url_resolve instance (JObj fields')
        = extract rev url_resolve instance (JObj fields))
  /\ (truthy (lookup "formatStreams" fields) = false ->
      selectFormats (JObj fields)
      = Normal (if truthy (lookup "adaptiveFormats" fields)
                then lookup "adaptiveFormats" fields
                else Some (JArr []))).
Proof.
  split.
  - intros formatStreams fields' Hfs Htruthy Hsame.
    assert (Hsel : forall fds,
               lookup "formatStreams" fds = Some formatStreams ->
               selectFormats (JObj fds) = Normal (Some formatStreams)).
    { intros fds H. unfold selectFormats. cbn [get bind].
      rewrite H, Htruthy. reflexivity. }
    split; [now apply Hsel|].
    unfold extract.
    rewrite (Hsel fields Hfs), (Hsel fields').
    + cbn [bind].
      destruct (findHlsFormat (Some formatStreams)) as [hlsFormat|e];
        [|reflexivity].
      cbn [bind]. unfold chooseUrl. cbn [get].
      rewrite (Hsame "hlsUrl") by discriminate. reflexivity.
    + rewrite Hsame by discriminate. exact Hfs.
  - intros Hfalsy. unfold selectFormats. cbn [get bind].
    rewrite Hfalsy.
    destruct (truthy (lookup "adaptiveFormats" fields)); reflexivity.
Qed.

(** An empty [formatStreams] hides the HLS descriptor of
    [adaptiveFormats]: no URL is found. *)
Lemma formatStreams_shadows_adaptiveFormats_example :
  selectFormats shadowed_body = Normal (Some (JArr []))
  /\ extract ServerJs node_url_resolve "https://p3.example"
       (JObj [("formatStreams", JArr [])])
     = extract ServerJs node_url_resolve "https://p3.example" shadowed_body.
Proof.
  refine (proj1 (formatStreams_shadows_adaptiveFormats ServerJs node_url_resolve
                   "https://p3.example" _)
            (JArr []) [("formatStreams", JArr [])] _ _ _).
  - reflexivity.
  - reflexivity.
  - intros key Hkey. cbn [lookup].
    destruct (String.eqb "formatStreams" key); [reflexivity|].
    destruct (String.eqb_spec "adaptiveFormats" key); [congruence | reflexivity].
Defined.

Lemma shadowed_body_has_no_url (rev : revision) :
  extract rev node_url_resolve "https://p3.example" shadowed_body = Normal None.
Proof.
  destruct rev; reflexivity.
Qed.

(** ** The address rewriter *)

Section AddressRewriterFacts.

Import Whatwg.

Lemma splitsHost_cases (c : ascii) :
  splitsHost c = false ->
  forall d,
    In d (map ascii_of_N [9; 10; 13; 35; 47; 58; 63; 91; 92; 93]%N) ->
    Ascii.eqb c d = false.
Proof.
  unfold splitsHost. intros H d Hd.
  apply in_map_iff in Hd as (n & <- & Hn).
  destruct (Ascii.eqb_spec c (ascii_of_N n)) as [->|]; [|reflexivity].
  rewrite <- H. symmetry. apply existsb_exists.
  exists n. split; [exact Hn|].
  apply N.eqb_eq. simpl in Hn.
  repeat destruct Hn as [<- | Hn]; try reflexivity; contradiction.
Qed.

Lemma removeTabNewline_plain (s : string) :
  noneSplitsHost s = true -> removeTabNewline s = s.
Proof.
  induction s as [|c s IH]; [reflexivity|].
  cbn [noneSplitsHost removeTabNewline]. intros H.
  apply andb_prop in H as [Hc Hs]. apply negb_true_iff in Hc.
  pose proof (splitsHost_cases c Hc) as Hne.
  assert (Htab : existsb (N.eqb (code c)) [9; 10; 13]%N = false).
  { apply not_true_is_false. intros Hex.
    apply existsb_exists in Hex as (n & Hin & Hn).
    apply N.eqb_eq in Hn. unfold code in Hn.
    assert (Hd : Ascii.eqb c (ascii_of_N n) = false).
    { apply Hne, in_map. simpl in Hin |- *. tauto. }
    rewrite <- Hn, ascii_N_embedding, Ascii.eqb_refl in Hd. discriminate. }
  rewrite Htab. now rewrite (IH Hs).
Qed.

Lemma hostnameBuffer_plain (special : bool) (s : string) :
  noneSplitsHost s = true -> hostnameBuffer special false s = Some s.
Proof.
  induction s as [|c s IH]; [reflexivity|].
  cbn [noneSplitsHost hostnameBuffer]. intros H.
  apply andb_prop in H as [Hc Hs]. apply negb_true_iff in Hc.
  pose proof (splitsHost_cases c Hc) as Hne.
  unfold endsHost.
  rewrite (Hne ":"%char), (Hne "/"%char), (Hne "?"%char), (Hne "#"%char),
    (Hne "\"%char), (Hne "["%char), (Hne "]"%char) by (simpl; tauto).
  rewrite andb_false_r. cbn [andb orb]. now rewrite (IH Hs).
Qed.

Variable host_parse : bool -> string -> option string.

Lemma set_hostname_scheme (u : URL) (value : string) :
  scheme (set_hostname host_parse u value) = scheme u.
Proof.
  unfold set_hostname.
  destruct (hasOpaquePath u); [reflexivity|].
  destruct (String.eqb (scheme u) "file").
  - destruct (fileHostBuffer (removeTabNewline value)); [reflexivity|].
    destruct (host_parse _ _); reflexivity.
  - destruct (hostnameBuffer _ _ _) as [buffer|]; [|reflexivity].
    destruct (_ && _); [reflexivity|].
    destruct (_ && _); [reflexivity|].
    destruct (host_parse _ _); reflexivity.
Qed.

(** The hostname setter on a URL with a special scheme, given a plain host
    name the host parser accepts. *)
Lemma set_hostname_plain (u : URL) (value h : string) :
  hasOpaquePath u = false ->
  isSpecial (scheme u) = true ->
  scheme u <> "file" ->
  plainHost value = true ->
  host_parse false value = Some h ->
  set_hostname host_parse u value = withHost u h.
Proof.
  intros Hpath Hspecial Hfile Hplain Hparse.
  unfold plainHost in Hplain. apply andb_prop in Hplain as [Hne Hchars].
  unfold set_hostname. rewrite Hpath, Hspecial.
  destruct (String.eqb_spec (scheme u) "file") as [|_]; [contradiction|].
  rewrite (removeTabNewline_plain value Hchars).
  rewrite (hostnameBuffer_plain true value Hchars).
  rewrite Hne. simpl. now rewrite Hparse.
Qed.

(** The protocol setter, given [https:], on a URL with a special scheme
    other than [file]. *)
Lemma set_protocol_https (u : URL) :
  isSpecial (scheme u) = true ->
  scheme u <> "file" ->
  set_protocol u "https:"
  = mkURL "https" (username u) (password u) (host u)
      match port u with
      | Some p => if (p =? 443)%N then None else Some p
      | None => None
      end
      (path u) (query u) (fragment u).
Proof.
  intros Hspecial Hfile. unfold set_protocol.
  change (scanScheme (removeTabNewline ("https:" ++ ":")))
    with (Some ("https", ":")).
  rewrite Hspecial. simpl.
  rewrite andb_false_r.
  destruct (String.eqb_spec (scheme u) "file") as [|_]; [contradiction|].
  simpl. destruct (port u); reflexivity.
Qed.

(** The protocol setter leaves a URL with another scheme as it is. *)
Lemma set_protocol_not_special (u : URL) :
  isSpecial (scheme u) = false -> set_protocol u "https:" = u.
Proof.
  intros Hspecial. unfold set_protocol.
  change (scanScheme (removeTabNewline ("https:" ++ ":")))
    with (Some ("https", ":")).
  now rewrite Hspecial.
Qed.

End AddressRewriterFacts.

(** C8, as amended: for an input the constructor parses to a URL with a
    special scheme other than [file] (http, https, ws, wss, ftp), and a
    target that, without its first [http://] or [https://], is a plain
    host name the host parser accepts, [replaceDomain] returns the
    serialization of the URL with that host, the scheme [https], and the
    same credentials, path, query and fragment; the port stays unless it is
    443.  A URL with another scheme keeps its scheme.  An input the
    constructor rejects is returned as it is.  The example of the
    specification holds. *)
Theorem replaceDomain_rewrites_host :
  (forall (URL_parse : string -> option Whatwg.URL)
          (host_parse : bool -> string -> option string)
          (hlsUrl newDomain : string),
      (forall u h,
         URL_parse hlsUrl = Some u ->
         Whatwg.isSpecial (Whatwg.scheme u) = true ->
         Whatwg.scheme u <> "file" ->
         Whatwg.hasOpaquePath u = false ->
         plainHost (Js.replace_scheme newDomain) = true ->
         host_parse false (Js.replace_scheme newDomain) = Some h ->
         replaceDomain URL_parse host_parse hlsUrl newDomain
         = Whatwg.serialize
             (Whatwg.mkURL "https" (Whatwg.username u) (Whatwg.password u)
                (Some h)
                match Whatwg.port u with
                | Some p => if (p =? 443)%N then None else Some p
                | None => None
                end
                (Whatwg.path u) (Whatwg.query u) (Whatwg.fragment u)))
      /\ (forall u,
            URL_parse hlsUrl = Some u ->
            Whatwg.isSpecial (Whatwg.scheme u) = false ->
            exists u',
              replaceDomain URL_parse host_parse hlsUrl newDomain
              = Whatwg.serialize u'
              /\ Whatwg.scheme u' = Whatwg.scheme u)
      /\ (URL_parse hlsUrl = None ->
          replaceDomain URL_parse host_parse hlsUrl newDomain = hlsUrl))
  /\ (forall host,
        Js.replace_scheme ("https://" ++ host) = host
        /\ Js.replace_scheme ("http://" ++ host) = host)
  /\ replaceDomain WhatwgModel.parse WhatwgModel.parseHost example_stream
       TARGET_DOMAIN
     = "https://manifest.googlevideo.com/videoplayback?id=1".
Proof.
  split; [|split; [split|]]; try reflexivity.
  intros URL_parse host_parse hlsUrl newDomain. unfold replaceDomain.
  split; [|split].
  - intros u h Hparse Hspecial Hfile Hpath Hplain Hhost.
    rewrite Hparse.
    rewrite (set_hostname_plain host_parse u _ h) by assumption.
    rewrite set_protocol_https by assumption.
    reflexivity.
  - intros u Hparse Hspecial. rewrite Hparse.
    exists (Whatwg.set_hostname host_parse u (Js.replace_scheme newDomain)).
    rewrite set_protocol_not_special
      by (now rewrite set_hostname_scheme).
    split; [reflexivity | apply set_hostname_scheme].
  - now intros ->.
Qed.

(** The example of the specification, from the theorem. *)
Lemma replaceDomain_rewrites_host_example :
  replaceDomain WhatwgModel.parse WhatwgModel.parseHost example_stream
    TARGET_DOMAIN
  = Whatwg.serialize
      (Whatwg.mkURL "https" "" "" (Some "manifest.googlevideo.com") None
         (Whatwg.Segments ["videoplayback"]) (Some "id=1") None).
Proof.
  refine (proj1 (proj1 replaceDomain_rewrites_host WhatwgModel.parse
                   WhatwgModel.parseHost example_stream TARGET_DOMAIN)
            (Whatwg.mkURL "https" "" "" (Some "r1---sn-abc.googlevideo.com") None
               (Whatwg.Segments ["videoplayback"]) (Some "id=1") None)
            "manifest.googlevideo.com" _ _ _ _ _ _);
    try reflexivity.
  discriminate.
Defined.

(** C8, as stated, fails: a URL with another scheme than the special ones
    keeps its scheme, since the protocol setter does not change a scheme
    that is not special into one that is. *)
Lemma replaceDomain_keeps_other_scheme :
  WhatwgModel.parse "rtsp://r1.example/live?id=1"
  = Some (Whatwg.mkURL "rtsp" "" "" (Some "r1.example") None
            (Whatwg.Segments ["live"]) (Some "id=1") None)
  /\ replaceDomain WhatwgModel.parse WhatwgModel.parseHost
       "rtsp://r1.example/live?id=1" TARGET_DOMAIN
     = "rtsp://manifest.googlevideo.com/live?id=1"
  /\ Js.startsWith
       (replaceDomain WhatwgModel.parse WhatwgModel.parseHost
          "rtsp://r1.example/live?id=1" TARGET_DOMAIN)
       "https:" = false.
Proof.
  repeat split.
Qed.

(** * Further properties of the relay *)

(** ** The resolver: what it returns and what it asks *)

Section ResolverOutcome.

Variable rev : revision.
Variable url_resolve : string -> string -> option string.
Variable net : network.
Variable videoId : string.

Local Abbreviation attempt' := (attempt rev url_resolve net).
Local Abbreviation resolveFrom' := (resolveFrom rev url_resolve net).

Lemma extract_returnable (instance : string) (videoInfo : json) (url : value) :
  extract rev url_resolve instance videoInfo = Normal (Some url) ->
  returnable rev url_resolve instance url.
Proof.
  rewrite extract_rawUrl. unfold returnable, absolutize.
  destruct (rawUrl rev videoInfo) as [hlsUrl|e]; cbn [bind]; [|discriminate].
  destruct (truthy hlsUrl) eqn:Ht; [|discriminate].
  destruct rev; cbn [bind].
  - intros H. injection H as <-. exact Ht.
  - destruct hlsUrl as [[| | |s| |]|]; cbn [bind]; try discriminate.
    destruct (Js.startsWith s "http") eqn:Hs; cbn [negb bind].
    + intros H. injection H as <-. exists s. auto.
    + destruct (url_resolve instance s) as [r|] eqn:Hr; cbn [bind];
        [|discriminate].
      intros H. injection H as <-. exists r. split; [reflexivity|].
      right. now exists s.
  - intros H. injection H as <-. exact Ht.
Qed.

Lemma attempt_returnable (n : nat) (instance : string) (url : value) :
  attempt' n instance videoId = Normal (Some url) ->
  returnable rev url_resolve instance url.
Proof.
  unfold attempt.
  destruct (net n (apiRequest rev instance videoId)) as [r|e]; cbn [bind];
    [|discriminate].
  destruct (ok r); cbn [negb]; [|discriminate].
  destruct (json_body r) as [videoInfo|e]; cbn [bind]; [|discriminate].
  apply extract_returnable.
Qed.

Lemma returnable_not_null (instance : string) (url : value) :
  returnable rev url_resolve instance url -> url <> Some JNull.
Proof.
  unfold returnable. destruct rev.
  - intros H ->. discriminate.
  - intros (s & -> & _). discriminate.
  - intros H ->. discriminate.
Qed.

(** Either no endpoint of the list gives a URL, or there is a first one
    that does. *)
Lemma first_success_or_none (instances : list string) :
  forall n : nat,
    (forall j inst,
       nth_error instances j = Some inst ->
       producesUrl (attempt' (n + j) inst videoId) = false)
    \/ exists (pre : list string) instance post url,
         instances = (pre ++ instance :: post)%list
         /\ (forall j inst,
               nth_error pre j = Some inst ->
               producesUrl (attempt' (n + j) inst videoId) = false)
         /\ attempt' (n + List.length pre) instance videoId = Normal (Some url).
Proof.
  induction instances as [|p rest IH]; intros n.
  - left. intros [|j] inst H; discriminate.
  - destruct (attempt' n p videoId) as [[url|]|e] eqn:Hp.
    + right. exists [], p, rest, url. split; [reflexivity|]. split.
      * intros [|j] inst H; discriminate.
      * cbn [List.length]. now rewrite Nat.add_0_r.
    + destruct (IH (S n)) as [Hall | (pre & i & post & url & -> & Hpre & Hk)].
      * left. intros [|j] inst H.
        -- injection H as <-. now rewrite Nat.add_0_r, Hp.
        -- rewrite <- Nat.add_succ_comm. now apply Hall.
      * right. exists (p :: pre), i, post, url. split; [reflexivity|]. split.
        -- intros [|j] inst H.
           ++ injection H as <-. now rewrite Nat.add_0_r, Hp.
           ++ rewrite <- Nat.add_succ_comm. now apply Hpre.
        -- cbn [List.length]. now rewrite <- Nat.add_succ_comm.
    + destruct (IH (S n)) as [Hall | (pre & i & post & url & -> & Hpre & Hk)].
      * left. intros [|j] inst H.
        -- injection H as <-. now rewrite Nat.add_0_r, Hp.
        -- rewrite <- Nat.add_succ_comm. now apply Hall.
      * right. exists (p :: pre), i, post, url. split; [reflexivity|]. split.
        -- intros [|j] inst H.
           ++ injection H as <-. now rewrite Nat.add_0_r, Hp.
           ++ rewrite <- Nat.add_succ_comm. now apply Hpre.
        -- cbn [List.length]. now rewrite <- Nat.add_succ_comm.
Qed.

End ResolverOutcome.

(** The two ways a resolution ends. *)
Lemma resolver_outcome_split
    (rev : revision) (url_resolve : string -> string -> option string)
    (net : network) (instances : list string) (videoId : string) :
  let run := getHlsUrlFromInvidious rev url_resolve net instances videoId in
  ((forall j inst,
      nth_error instances j = Some inst ->
      producesUrl (attempt rev url_resolve net j inst videoId) = false)
   /\ snd run = Some JNull
   /\ queries (fst run) = map (fun i => apiRequest rev i videoId) instances)
  \/ exists (pre : list string) instance post url,
       instances = (pre ++ instance :: post)%list
       /\ (forall j inst,
             nth_error pre j = Some inst ->
             producesUrl (attempt rev url_resolve net j inst videoId) = false)
       /\ attempt rev url_resolve net (List.length pre) instance videoId
          = Normal (Some url)
       /\ snd run = url
       /\ queries (fst run)
          = map (fun i => apiRequest rev i videoId) (pre ++ [instance])%list.
Proof.
  intros run. subst run. unfold getHlsUrlFromInvidious.
  destruct (first_success_or_none rev url_resolve net videoId instances 0)
    as [Hall | (pre & i & post & url & -> & Hpre & Hk)].
  - left. split; [exact Hall|].
    now apply resolveFrom_all_fail.
  - right. exists pre, i, post, url.
    split; [reflexivity|]. split; [exact Hpre|]. split; [exact Hk|].
    now apply resolveFrom_first_success.
Qed.

(** X1: where a result of [getHlsUrlFromInvidious] comes from.  A result
    that is not [null] is the URL the attempt at one configured instance
    returned; the attempts at the instances before it failed, and the
    requests of the resolution are those of the instances up to it, one
    each, in order, none for an instance after it.  When the result is
    [null], the requests are those of all configured instances, one each, in
    order. *)
Theorem resolver_result_provenance
    (rev : revision) (url_resolve : string -> string -> option string)
    (net : network) (instances : list string) (videoId : string) :
  let run := getHlsUrlFromInvidious rev url_resolve net instances videoId in
  (snd run <> Some JNull ->
   exists (pre : list string) instance post,
     instances = (pre ++ instance :: post)%list
     /\ (forall j inst,
           nth_error pre j = Some inst ->
           producesUrl (attempt rev url_resolve net j inst videoId) = false)
     /\ attempt rev url_resolve net (List.length pre) instance videoId
        = Normal (Some (snd run))
     /\ queries (fst run)
        = map (fun i => apiRequest rev i videoId) (pre ++ [instance])%list)
  /\ (snd run = Some JNull ->
      queries (fst run) = map (fun i => apiRequest rev i videoId) instances).
Proof.
  intros run.
  destruct (resolver_outcome_split rev url_resolve net instances videoId)
    as [(_ & Hnull & Hq) | (pre & i & post & url & Hi & Hpre & Hk & Hres & Hq)];
    fold run in Hnull, Hq || fold run in Hres, Hq.
  - split; [intros Hurl; contradiction | intros _; exact Hq].
  - split.
    + intros _. exists pre, i, post. rewrite Hres. now repeat split.
    + intros Hnull. rewrite Hres in Hnull. subst url.
      apply attempt_returnable in Hk.
      now apply returnable_not_null in Hk.
Qed.

(** X2: the result of [getHlsUrlFromInvidious] is [null] exactly when the
    attempt at every configured instance fails: a URL the resolver returns
    is never [null]. *)
Theorem resolver_null_iff_exhausted
    (rev : revision) (url_resolve : string -> string -> option string)
    (net : network) (instances : list string) (videoId : string) :
  snd (getHlsUrlFromInvidious rev url_resolve net instances videoId) = Some JNull
  <-> (forall j inst,
         nth_error instances j = Some inst ->
         producesUrl (attempt rev url_resolve net j inst videoId) = false).
Proof.
  split.
  - intros Hnull.
    destruct (resolver_outcome_split rev url_resolve net instances videoId)
      as [[Hall _] | (pre & i & post & url & _ & _ & Hk & Hres & _)];
      [exact Hall|].
    cbv zeta in Hres. rewrite Hnull in Hres. subst url.
    apply attempt_returnable in Hk.
    now apply returnable_not_null in Hk.
  - intros Hall. unfold getHlsUrlFromInvidious.
    now apply resolveFrom_all_fail.
Qed.

(** X3: what the caller's test [!hlsUrl] sees.  In [src/server.js] and in
    the legacy revision the result is [null] or a truthy value, which need
    not be a string; in [Relay] it is [null] or a string, one that begins
    with [http] or that [url.resolve] returned for one of the configured
    instances. *)
Theorem resolver_result_shape
    (rev : revision) (url_resolve : string -> string -> option string)
    (net : network) (instances : list string) (videoId : string) :
  let result :=
    snd (getHlsUrlFromInvidious rev url_resolve net instances videoId) in
  result = Some JNull
  \/ match rev with
     | Relay =>
         exists s,
           result = Some (JStr s)
           /\ (Js.startsWith s "http" = true
               \/ exists instance raw,
                    In instance instances
                    /\ url_resolve instance raw = Some s)
     | ServerJs | Legacy => truthy result = true
     end.
Proof.
  intros result. subst result.
  destruct (resolver_outcome_split rev url_resolve net instances videoId)
    as [(_ & Hnull & _) | (pre & i & post & url & -> & _ & Hk & Hres & _)];
    [now left|].
  right. cbv zeta in Hres. rewrite Hres.
  apply attempt_returnable in Hk. unfold returnable in Hk.
  destruct rev; try exact Hk.
  destruct Hk as (s & -> & [Hs | (raw & Hraw)]); exists s;
    (split; [reflexivity|]); [now left|].
  right. exists i, raw. split; [|exact Hraw].
  apply in_or_app. right. now left.
Qed.

(** ** The resolver: the search for the HLS descriptor *)

(** X4: [formats.find] stops at the first match.  When the elements in
    front of a matching descriptor are readable and do not match, that
    descriptor is found whatever follows it, an element the callback could
    not read included; when an element the callback cannot read comes
    first, the search throws, a matching descriptor behind it
    notwithstanding. *)
Theorem find_stops_at_first_match (pre : list json) (f : json) (rest : list json) :
  Forall (fun g => readable g = true /\ matchesHls g = false) pre ->
  (matchesHls f = true ->
   findHlsFormat (Some (JArr (pre ++ f :: rest))) = Normal (Some f))
  /\ (forall e,
        isHlsFormat f = Throw e ->
        findHlsFormat (Some (JArr (pre ++ f :: rest))) = Throw e).
Proof.
  intros Hpre. cbn [findHlsFormat]. rewrite (find_skips pre (f :: rest) Hpre).
  cbn [find]. split.
  - intros Hf. now rewrite (matchesHls_found f Hf).
  - intros e He. now rewrite He.
Qed.

Lemma find_stops_at_first_match_example :
  (matchesHls (JObj [("container", JStr "hls"); ("url", JStr "u")]) = true ->
   findHlsFormat
     (Some (JArr ([JObj [("qualityLabel", JStr "720p")]]
                  ++ JObj [("container", JStr "hls"); ("url", JStr "u")]
                  :: [JNull])))
   = Normal (Some (JObj [("container", JStr "hls"); ("url", JStr "u")])))
  /\ (forall e,
        isHlsFormat (JObj [("container", JStr "hls"); ("url", JStr "u")])
        = Throw e ->
        findHlsFormat
          (Some (JArr ([JObj [("qualityLabel", JStr "720p")]]
                       ++ JObj [("container", JStr "hls"); ("url", JStr "u")]
                       :: [JNull])))
        = Throw e).
Proof.
  apply (find_stops_at_first_match [JObj [("qualityLabel", JStr "720p")]]).
  repeat constructor.
Defined.

Lemma toLowerCase_app (a b : string) :
  Js.toLowerCase (a ++ b) = Js.toLowerCase a ++ Js.toLowerCase b.
Proof.
  induction a as [|c a IH]; [reflexivity|].
  cbn [append Js.toLowerCase]. now rewrite IH.
Qed.

Lemma startsWith_prefix (p s : string) : Js.startsWith (p ++ s) p = true.
Proof.
  induction p as [|c p IH]; [reflexivity|].
  change (Ascii.eqb c c && Js.startsWith (p ++ s) p = true).
  now rewrite Ascii.eqb_refl, IH.
Qed.

Lemma includes_middle (a x b : string) : Js.includes (a ++ x ++ b) x = true.
Proof.
  induction a as [|c a IH].
  - cbn [append]. destruct (x ++ b) eqn:E;
      cbn [Js.includes]; rewrite <- E, startsWith_prefix; reflexivity.
  - cbn [append Js.includes]. rewrite IH. apply orb_true_r.
Qed.

(** X5: the test of a descriptor is exact on the container and blind to
    letter case on the quality label.  A label that holds [hls] in any
    mix of upper and lower case makes the descriptor match, whatever the
    container; a descriptor with another container than [hls], the same
    word in upper case included, and without a truthy label does not
    match. *)
Theorem descriptor_test_cases (fields : list (string * json)) :
  (forall a x b,
     lookup "qualityLabel" fields = Some (JStr (a ++ x ++ b)) ->
     Js.toLowerCase x = "hls" ->
     isHlsFormat (JObj fields) = Normal true)
  /\ (strictEquals (lookup "container" fields) "hls" = false ->
      truthy (lookup "qualityLabel" fields) = false ->
      isHlsFormat (JObj fields) = Normal false)
  /\ strictEquals (Some (JStr "HLS")) "hls" = false.
Proof.
  split; [|split; [|reflexivity]].
  - intros a x b Hq Hx. unfold isHlsFormat. cbn [get bind].
    destruct (strictEquals (lookup "container" fields) HLS_FORMAT_NAME);
      [reflexivity|].
    rewrite Hq.
    assert (Hin : Js.includes (Js.toLowerCase (a ++ x ++ b)) HLS_FORMAT_NAME = true).
    { rewrite !toLowerCase_app, Hx. apply includes_middle. }
    assert (Ht : truthy (Some (JStr (a ++ x ++ b))) = true).
    { cbn [truthy]. destruct a; [|reflexivity].
      destruct x; [discriminate | reflexivity]. }
    now rewrite Ht, Hin.
  - intros Hc Hq. unfold isHlsFormat. cbn [get bind].
    change HLS_FORMAT_NAME with "hls". now rewrite Hc, Hq.
Qed.

(** ** The manifest rewriter: texts, lines and the base *)

Section RewriterFurther.

Variable url_resolve : string -> string -> option string.

Lemma append_assoc (a b c : string) : (a ++ b) ++ c = a ++ (b ++ c).
Proof.
  induction a as [|x a IH]; [reflexivity|].
  cbn [append]. now rewrite IH.
Qed.

Lemma join_app (ls1 ls2 : list string) :
  ls1 <> [] -> ls2 <> [] ->
  Js.join Js.LF (ls1 ++ ls2)
  = Js.join Js.LF ls1 ++ String Js.LF (Js.join Js.LF ls2).
Proof.
  intros H1 H2. induction ls1 as [|l ls1 IH]; [congruence|].
  destruct ls1 as [|l' ls1].
  - cbn [app]. now rewrite join_cons.
  - change ((l :: l' :: ls1) ++ ls2)%list with (l :: ((l' :: ls1) ++ ls2))%list.
    rewrite join_cons by discriminate.
    rewrite IH by discriminate.
    rewrite (join_cons Js.LF l (l' :: ls1)) by discriminate.
    now rewrite append_assoc.
Qed.

(** A line is kept when the resolver throws on it. *)
Lemma rewriteLine_on_error (base line : string) :
  url_resolve base (Js.trim line) = None ->
  rewriteLine url_resolve base line = line.
Proof.
  intros Hnone. destruct (passesThrough line) eqn:Hp.
  - now apply rewriteLine_passes.
  - now rewrite rewriteLine_resolves, Hnone.
Qed.

End RewriterFurther.

(** X6: a manifest whose lines are all blank, directives, or references
    that begin with [http://], [https://] or [//] comes back as it is,
    character for character, whatever the source URL and the resolver. *)
Theorem rewrite_absolute_manifest_unchanged
    (url_resolve : string -> string -> option string) (m u : string) :
  Forall (fun line => passesThrough line = true) (Js.split Js.LF m) ->
  rewriteHlsManifest url_resolve m u = m.
Proof.
  intros Habs. unfold rewriteHlsManifest.
  rewrite <- (join_split Js.LF m) at 2. f_equal.
  induction Habs as [|line ls Hline _ IH]; [reflexivity|].
  cbn [map]. rewrite IH. f_equal. now apply rewriteLine_passes.
Qed.

Lemma rewrite_absolute_manifest_unchanged_example :
  rewriteHlsManifest node_url_resolve example_rewritten "a/m.m3u8"
  = example_rewritten.
Proof.
  apply rewrite_absolute_manifest_unchanged.
  vm_compute. repeat constructor.
Defined.

(** X7: a reference the resolver throws on is kept as it is.  When it
    throws on every reference of the manifest, that is, on every line that
    is not blank and begins with none of [#], [http://], [https://] and
    [//], the manifest comes back unchanged: no line is dropped or blanked.
    Nothing is asked of the resolver on the other lines, which never reach
    it. *)
Theorem rewrite_survives_resolver_errors
    (url_resolve : string -> string -> option string) (m u : string) :
  (forall line,
     In line (Js.split Js.LF m) ->
     passesThrough line = false ->
     url_resolve (manifestBase u) (Js.trim line) = None) ->
  rewriteHlsManifest url_resolve m u = m.
Proof.
  intros Hthrows. unfold rewriteHlsManifest.
  rewrite <- (join_split Js.LF m) at 2. f_equal.
  induction (Js.split Js.LF m) as [|line ls IH]; [reflexivity|].
  cbn [map]. rewrite IH.
  - f_equal. destruct (passesThrough line) eqn:Hp.
    + now apply rewriteLine_passes.
    + apply rewriteLine_on_error. apply Hthrows; [now left | exact Hp].
  - intros l Hl. apply Hthrows. now right.
Qed.

(** A resolver that resolves what it can, and a manifest whose only
    reference it throws on. *)
Lemma rewrite_survives_resolver_errors_example :
  rewriteHlsManifest bracket_strict_resolve bracket_manifest example_source
  = bracket_manifest.
Proof.
  apply (rewrite_survives_resolver_errors bracket_strict_resolve
           bracket_manifest example_source).
  intros line Hin Hp. vm_compute in Hin.
  destruct Hin as [<- | [<- | [<- | [<- | [<- | []]]]]];
    try discriminate Hp; vm_compute; reflexivity.
Defined.

(** X8: the rewriter works line by line: the rewritten form of two texts
    put together with a line feed is the rewritten forms put together with
    a line feed.  In particular a final line feed stays, and so does an
    empty line. *)
Theorem rewrite_linewise
    (url_resolve : string -> string -> option string) (a b u : string) :
  rewriteHlsManifest url_resolve (a ++ String Js.LF b) u
  = rewriteHlsManifest url_resolve a u
    ++ String Js.LF (rewriteHlsManifest url_resolve b u).
Proof.
  unfold rewriteHlsManifest. cbv zeta.
  rewrite split_then, map_app. apply join_app.
  - pose proof (split_not_nil Js.LF a).
    destruct (Js.split Js.LF a); [congruence | discriminate].
  - pose proof (split_not_nil Js.LF b).
    destruct (Js.split Js.LF b); [congruence | discriminate].
Qed.

(** ** The base directory *)

Lemma lastIndexOf_lower (c : ascii) (s : string) : (-1 <= Js.lastIndexOf c s)%Z.
Proof.
  induction s as [|a s IH]; cbn [Js.lastIndexOf]; [lia|].
  destruct (0 <=? Js.lastIndexOf c s)%Z eqn:H.
  - apply Z.leb_le in H. lia.
  - destruct (Ascii.eqb a c); lia.
Qed.

Lemma manifestBase_cons (a : ascii) (s : string) :
  (0 <= Js.lastIndexOf "/" s)%Z ->
  manifestBase (String a s) = String a (manifestBase s).
Proof.
  intros H. unfold manifestBase, Js.substring0. cbn [Js.lastIndexOf].
  rewrite (proj2 (Z.leb_le _ _) H).
  replace (Z.to_nat (Js.lastIndexOf "/" s + 1 + 1))
    with (S (Z.to_nat (Js.lastIndexOf "/" s + 1))) by lia.
  reflexivity.
Qed.

(** X9: the base is cut at the last slash of the source URL taken as a
    text, a slash of the query string or of the fragment included: the
    source URL is the base followed by a rest without slash, and the base
    is empty, when the URL has no slash, or ends with a slash. *)
Theorem manifestBase_cuts_at_last_slash (u : string) :
  exists rest,
    u = manifestBase u ++ rest
    /\ Js.lastIndexOf "/" rest = (-1)%Z
    /\ ((manifestBase u = "" /\ Js.lastIndexOf "/" u = (-1)%Z)
        \/ exists p, manifestBase u = p ++ "/").
Proof.
  induction u as [|a u (rest & Hu & Hrest & Hbase)].
  - exists "". repeat split. now left.
  - destruct (0 <=? Js.lastIndexOf "/" u)%Z eqn:Hi.
    + apply Z.leb_le in Hi. rewrite (manifestBase_cons a u Hi).
      exists rest. split; [cbn [append]; now rewrite <- Hu|].
      split; [exact Hrest|]. right.
      destruct Hbase as [[_ Hno] | (p & Hp)]; [lia|].
      exists (String a p). cbn [append]. now rewrite Hp.
    + apply Z.leb_gt in Hi. pose proof (lastIndexOf_lower "/" u) as Hlo.
      assert (Hneg : Js.lastIndexOf "/" u = (-1)%Z) by lia.
      unfold manifestBase, Js.substring0. cbn [Js.lastIndexOf].
      rewrite Hneg. cbn [Z.leb Z.compare].
      destruct (Ascii.eqb_spec a "/") as [->|Hne].
      * assert (H0 : String.substring 0 0 u = "") by (destruct u; reflexivity).
        change (Z.to_nat (0 + 1)) with 1%nat. cbn [String.substring].
        rewrite H0.
        exists u. split; [reflexivity|]. split; [exact Hneg|].
        right. now exists "".
      * exists (String a u). split; [reflexivity|]. split.
        -- cbn [Js.lastIndexOf]. rewrite Hneg. cbn [Z.leb Z.compare].
           destruct (Ascii.eqb_spec a "/"); [contradiction | reflexivity].
        -- left. split; reflexivity.
Qed.

(** A slash in the query string moves the base. *)
Lemma manifestBase_query_slash :
  manifestBase "https://host/path/master.m3u8?token=a/b"
  = "https://host/path/master.m3u8?token=a/".
Proof.
  reflexivity.
Qed.

(** ** The address rewriter: what it leaves alone *)

(** X10: the target is altered only where it holds a scheme marker: a
    target in which neither [http://] nor [https://] occurs, such as
    [TARGET_DOMAIN], reaches the hostname setter as it is. *)
Theorem replace_scheme_without_marker (newDomain : string) :
  Js.includes newDomain "http://" = false ->
  Js.includes newDomain "https://" = false ->
  Js.replace_scheme newDomain = newDomain.
Proof.
  induction newDomain as [|c s IH]; intros Hhttp Hhttps; [reflexivity|].
  cbn [Js.includes] in Hhttp, Hhttps.
  apply orb_false_elim in Hhttp as [Hhttp0 Hhttp].
  apply orb_false_elim in Hhttps as [Hhttps0 Hhttps].
  cbn [Js.replace_scheme]. rewrite Hhttp0, Hhttps0.
  now rewrite IH.
Qed.

Lemma replace_scheme_without_marker_example :
  Js.replace_scheme TARGET_DOMAIN = TARGET_DOMAIN.
Proof.
  apply replace_scheme_without_marker; reflexivity.
Defined.

Section AddressRewriterFrame.

Import Whatwg.

Variable host_parse : bool -> string -> option string.

Lemma set_hostname_rest (u : URL) (value : string) :
  sameRest u (set_hostname host_parse u value)
  /\ port (set_hostname host_parse u value) = port u.
Proof.
  unfold set_hostname, sameRest.
  destruct (hasOpaquePath u); [tauto|].
  destruct (String.eqb (scheme u) "file").
  - destruct (fileHostBuffer (removeTabNewline value)); [cbn; tauto|].
    destruct (host_parse _ _); cbn; tauto.
  - destruct (hostnameBuffer _ _ _) as [buffer|]; [|tauto].
    destruct (_ && _); [tauto|].
    destruct (_ && _); [tauto|].
    destruct (host_parse _ _); cbn; tauto.
Qed.

Lemma set_protocol_rest (u : URL) (value : string) :
  sameRest u (set_protocol u value)
  /\ host (set_protocol u value) = host u
  /\ (port (set_protocol u value) = port u
      \/ port (set_protocol u value) = None).
Proof.
  unfold set_protocol, sameRest.
  destruct (scanScheme _) as [[buffer rest]|]; [|tauto].
  destruct (negb _); [tauto|].
  destruct (_ && _); [tauto|].
  destruct (_ && _); [tauto|].
  cbn. repeat split; try reflexivity.
  destruct (port u) as [p|]; [|now left].
  destruct (defaultPort buffer) as [d|]; [|now left].
  destruct (p =? d)%N; [now right | now left].
Qed.

End AddressRewriterFrame.

(** X11: whatever the scheme and the target, [replaceDomain] writes no
    other part of a URL it can parse than the scheme, the host and the
    port: the result is the serialization of a URL with the credentials,
    the path, the query and the fragment of the input, and with its port
    or none. *)
Theorem replaceDomain_keeps_rest
    (URL_parse : string -> option Whatwg.URL)
    (host_parse : bool -> string -> option string)
    (hlsUrl newDomain : string) (u : Whatwg.URL) :
  URL_parse hlsUrl = Some u ->
  exists u',
    replaceDomain URL_parse host_parse hlsUrl newDomain = Whatwg.serialize u'
    /\ Whatwg.username u' = Whatwg.username u
    /\ Whatwg.password u' = Whatwg.password u
    /\ Whatwg.path u' = Whatwg.path u
    /\ Whatwg.query u' = Whatwg.query u
    /\ Whatwg.fragment u' = Whatwg.fragment u
    /\ (Whatwg.port u' = Whatwg.port u \/ Whatwg.port u' = None).
Proof.
  intros Hparse. unfold replaceDomain. rewrite Hparse.
  set (v := Whatwg.set_hostname host_parse u (Js.replace_scheme newDomain)).
  exists (Whatwg.set_protocol v "https:").
  destruct (set_hostname_rest host_parse u (Js.replace_scheme newDomain))
    as [(Hu & Hp & Hpath & Hq & Hf) Hport].
  destruct (set_protocol_rest v "https:")
    as [(Hu' & Hp' & Hpath' & Hq' & Hf') [_ Hport']].
  fold v in Hu, Hp, Hpath, Hq, Hf, Hport.
  split; [reflexivity|].
  repeat (split; [congruence|]).
  destruct Hport' as [H | H]; [left | right]; congruence.
Qed.

Lemma replaceDomain_keeps_rest_example :
  exists u',
    replaceDomain WhatwgModel.parse WhatwgModel.parseHost
      "http://user:pw@cdn.example:8080/live/index.m3u8?id=1#t" TARGET_DOMAIN
    = Whatwg.serialize u'
    /\ Whatwg.username u' = "user"
    /\ Whatwg.password u' = "pw"
    /\ Whatwg.path u' = Whatwg.Segments ["live"; "index.m3u8"]
    /\ Whatwg.query u' = Some "id=1"
    /\ Whatwg.fragment u' = Some "t"
    /\ (Whatwg.port u' = Some 8080%N \/ Whatwg.port u' = None).
Proof.
  exact (replaceDomain_keeps_rest WhatwgModel.parse WhatwgModel.parseHost
           "http://user:pw@cdn.example:8080/live/index.m3u8?id=1#t"
           TARGET_DOMAIN
           (Whatwg.mkURL "http" "user" "pw" (Some "cdn.example") (Some 8080%N)
              (Whatwg.Segments ["live"; "index.m3u8"]) (Some "id=1") (Some "t"))
           eq_refl).
Defined.

(** ** The routes *)

Section RouteFacts.

Variable url_resolve : string -> string -> option string.
Variable net : network.
Variable download : downloader.
Variable URL_parse : string -> option Whatwg.URL.
Variable host_parse : bool -> string -> option string.
Variable URL_of_value : json -> option Whatwg.URL.
Variable instances : list string.

Local Abbreviation getManifest' :=
  (getManifest url_resolve net download URL_parse host_parse URL_of_value
     instances).
Local Abbreviation getUrl' :=
  (getUrl url_resolve net URL_parse host_parse URL_of_value instances).

Lemma downloads_resolving (events : list event) (tail : list server_event) :
  downloads (map Resolving events ++ tail) = downloads tail.
Proof.
  induction events as [|e events IH]; [reflexivity | exact IH].
Qed.

Lemma downloads_resolving_only (events : list event) :
  downloads (map Resolving events) = [].
Proof.
  induction events as [|e events IH]; [reflexivity | exact IH].
Qed.

(** The resolver of [Relay] returns [null] or a string. *)
Lemma relay_returns_string (videoId : string) :
  snd (getHlsUrlFromInvidious Relay url_resolve net instances videoId)
  = Some JNull
  \/ exists s,
       snd (getHlsUrlFromInvidious Relay url_resolve net instances videoId)
       = Some (JStr s).
Proof.
  destruct (resolver_outcome_split Relay url_resolve net instances videoId)
    as [(_ & Hnull & _) | (pre & i & post & url & _ & _ & Hk & Hres & _)];
    [now left|].
  right. cbv zeta in Hres. rewrite Hres.
  apply attempt_returnable in Hk. destruct Hk as (s & -> & _). now exists s.
Qed.

Lemma truthy_string_false (s : string) : Js.truthy_string s = false -> s = "".
Proof.
  destruct s; [reflexivity | discriminate].
Qed.

End RouteFacts.

(** X12: [GET /get/:id] answers 200 only with a manifest it downloaded: the
    body is then the text of a successful download, rewritten against the
    very URL it was downloaded from, that download is the only one of the
    request, and the four headers are set.  A failed resolution or a failed
    download never gives a 200 with an empty or partial manifest. *)
Theorem getManifest_serves_only_downloads
    (url_resolve : string -> string -> option string) (net : network)
    (download : downloader) (URL_parse : string -> option Whatwg.URL)
    (host_parse : bool -> string -> option string)
    (URL_of_value : json -> option Whatwg.URL) (instances : list string)
    (rev : revision) (videoId : string)
    (headers : list (string * string)) (body : payload) :
  snd (getManifest url_resolve net download URL_parse host_parse URL_of_value
         instances rev videoId)
  = Normal (Reply 200 headers body) ->
  exists base content agent,
    downloads
      (fst (getManifest url_resolve net download URL_parse host_parse
              URL_of_value instances rev videoId))
    = [JStr base]
    /\ download (JStr base) agent = Normal content
    /\ body = Content (JStr (rewriteHlsManifest url_resolve content base))
    /\ headers = manifestHeaders.
Proof.
  unfold getManifest.
  destruct (Js.truthy_string videoId); cbn [negb]; [|discriminate].
  destruct (getHlsUrlFromInvidious rev url_resolve net instances videoId)
    as [events [url|]]; [|discriminate].
  destruct (truthy (Some url)); cbn [negb]; [|discriminate].
  set (finalHlsUrl :=
         match rev with
         | Relay => replaceDomainOf URL_parse host_parse URL_of_value url TARGET_DOMAIN
         | _ => url
         end).
  set (agent := match rev with Legacy => None | _ => Some user_agent end).
  cbv zeta. unfold template.
  destruct (download finalHlsUrl agent) as [content|e] eqn:Hd;
    destruct (toStringThrows finalHlsUrl); cbn [bind fst snd];
    try discriminate.
  destruct finalHlsUrl as [| | |base| |] eqn:Hfinal; cbn [rewriteHlsManifestOf bind];
    try discriminate.
  intros H. injection H as <- <-.
  exists base, content, agent.
  rewrite <- app_assoc, downloads_resolving. now repeat split.
Qed.

Lemma getManifest_serves_only_downloads_example :
  exists base content agent,
    downloads
      (fst (getManifest node_url_resolve third_answers serves_example
              WhatwgModel.parse WhatwgModel.parseHost (fun _ => None)
              three_providers ServerJs "dQw4w9WgXcQ"))
    = [JStr base]
    /\ serves_example (JStr base) agent = Normal content
    /\ Content (JStr
         (Js.join Js.LF
            ["#EXTM3U"; "https://p3.example/live/seg0.ts";
             "https://cdn.x/seg1.ts"; "#EXT-X-ENDLIST"]))
       = Content (JStr (rewriteHlsManifest node_url_resolve content base))
    /\ manifestHeaders = manifestHeaders.
Proof.
  apply (getManifest_serves_only_downloads node_url_resolve third_answers
           serves_example WhatwgModel.parse WhatwgModel.parseHost
           (fun _ => None) three_providers ServerJs "dQw4w9WgXcQ").
  reflexivity.
Defined.

(** X13: when [GET /get/:id] is rejected, that is, ends with an exception
    and without a reply.  It happens exactly when the video id is not
    empty, the revision is [src/server.js] or the legacy one, and the
    resolver returned a truthy value that is not a string, either one with
    no string form (the log line after the download throws, whether the
    download succeeded or not) or one from which the download succeeded
    ([rewriteHlsManifest] then throws outside any [try]).  In [Relay] the
    handler is never rejected: the resolver returns [null] or a string, and
    [replaceDomain] a string. *)
Theorem getManifest_rejected_iff
    (url_resolve : string -> string -> option string) (net : network)
    (download : downloader) (URL_parse : string -> option Whatwg.URL)
    (host_parse : bool -> string -> option string)
    (URL_of_value : json -> option Whatwg.URL) (instances : list string)
    (rev : revision) (videoId : string) :
  (exists e,
     snd (getManifest url_resolve net download URL_parse host_parse
            URL_of_value instances rev videoId)
     = Throw e)
  <-> (videoId <> ""
       /\ rev <> Relay
       /\ exists v,
            snd (getHlsUrlFromInvidious rev url_resolve net instances videoId)
            = Some v
            /\ truthy (Some v) = true
            /\ (forall s, v <> JStr s)
            /\ (toStringThrows v = true
                \/ exists content,
                     download v
                       match rev with
                       | Legacy => None
                       | ServerJs | Relay => Some user_agent
                       end
                     = Normal content)).
Proof.
  unfold getManifest.
  destruct videoId as [|c videoId]; cbn [Js.truthy_string negb].
  { split; [intros [e He]; discriminate | intros [H _]; congruence]. }
  pose proof (relay_returns_string url_resolve net instances (String c videoId))
    as Hrelay.
  destruct (getHlsUrlFromInvidious rev url_resolve net instances
              (String c videoId)) as [events [url|]] eqn:Hrun; cbn [snd].
  2: { split; [intros [e He]; discriminate|].
       intros (_ & _ & v & Hv & _). discriminate. }
  destruct (truthy (Some url)) eqn:Ht; cbn [negb].
  2: { split; [intros [e He]; discriminate|].
       intros (_ & _ & v & Hv & Htv & _). injection Hv as <-. congruence. }
  unfold template. destruct rev.
  - (* src/server.js *)
    destruct (download url (Some user_agent)) as [content|e] eqn:Hd;
      destruct (toStringThrows url) eqn:Hts; cbn [bind snd].
    + split; [|intros _; eexists; reflexivity].
      intros _. split; [discriminate|]. split; [discriminate|].
      exists url. repeat split; auto.
      intros s ->. discriminate.
    + destruct url as [| | |base| |]; cbn [rewriteHlsManifestOf bind];
        try (split;
             [ intros _; split; [discriminate|]; split; [discriminate|];
               eexists; repeat split; eauto; discriminate
             | intros _; eexists; reflexivity ]).
      split; [intros [e He]; discriminate|].
      intros (_ & _ & v & Hv & _ & Hns & _). injection Hv as <-.
      now destruct (Hns base).
    + split; [|intros _; eexists; reflexivity].
      intros _. split; [discriminate|]. split; [discriminate|].
      exists url. repeat split; auto.
      intros s ->. discriminate.
    + split; [intros [e' He']; discriminate|].
      intros (_ & _ & v & Hv & _ & _ & [Hthrows | [content Hc]]);
        injection Hv as <-; congruence.
  - (* Relay *)
    rewrite Hrun in Hrelay. cbn [snd] in Hrelay.
    destruct Hrelay as [H | (s & H)]; injection H as ->; [discriminate|].
    cbn [replaceDomainOf toStringThrows].
    destruct (download _ _); cbn [bind snd rewriteHlsManifestOf];
      (split; [intros [e' He']; discriminate | intros (_ & H & _); congruence]).
  - (* the legacy revision *)
    destruct (download url None) as [content|e] eqn:Hd;
      destruct (toStringThrows url) eqn:Hts; cbn [bind snd].
    + split; [|intros _; eexists; reflexivity].
      intros _. split; [discriminate|]. split; [discriminate|].
      exists url. repeat split; auto.
      intros s ->. discriminate.
    + destruct url as [| | |base| |]; cbn [rewriteHlsManifestOf bind];
        try (split;
             [ intros _; split; [discriminate|]; split; [discriminate|];
               eexists; repeat split; eauto; discriminate
             | intros _; eexists; reflexivity ]).
      split; [intros [e He]; discriminate|].
      intros (_ & _ & v & Hv & _ & Hns & _). injection Hv as <-.
      now destruct (Hns base).
    + split; [|intros _; eexists; reflexivity].
      intros _. split; [discriminate|]. split; [discriminate|].
      exists url. repeat split; auto.
      intros s ->. discriminate.
    + split; [intros [e' He']; discriminate|].
      intros (_ & _ & v & Hv & _ & _ & [Hthrows | [content Hc]]);
        injection Hv as <-; congruence.
Qed.

(** [src/server.js] on a response whose [hlsUrl] is an object with a
    property [toString], the download from it failing: the handler is
    rejected by the log line of its [catch] clause. *)
Lemma getManifest_rejected_iff_example :
  exists e,
    snd (getManifest node_url_resolve (always unprintable_url_body)
           unreachable_host WhatwgModel.parse WhatwgModel.parseHost
           (fun _ => None) three_providers ServerJs "dQw4w9WgXcQ")
    = Throw e.
Proof.
  apply (proj2 (getManifest_rejected_iff node_url_resolve
                  (always unprintable_url_body) unreachable_host
                  WhatwgModel.parse WhatwgModel.parseHost (fun _ => None)
                  three_providers ServerJs "dQw4w9WgXcQ")).
  split; [discriminate|]. split; [discriminate|].
  exists (JObj [("toString", JNull)]).
  split; [reflexivity|]. split; [reflexivity|].
  split; [discriminate|]. left. reflexivity.
Defined.

(** X14: [GET /get/url/:videoid] with a video id answers 404 exactly when the
    resolver returned [null] or the empty string, and otherwise 200 with a
    text: [replaceDomain] of the string the resolver returned.  The resolver
    of this revision returning nothing but [null] or a string, the body of a
    200 is never an object or a number.  The three headers are set on both
    replies. *)
Theorem getUrl_reply
    (url_resolve : string -> string -> option string) (net : network)
    (URL_parse : string -> option Whatwg.URL)
    (host_parse : bool -> string -> option string)
    (URL_of_value : json -> option Whatwg.URL) (instances : list string)
    (videoId : string) :
  videoId <> "" ->
  (snd (getUrl url_resolve net URL_parse host_parse URL_of_value instances
          videoId)
   = Reply 404 urlHeaders (Message NoValidUrl)
   /\ (snd (getHlsUrlFromInvidious Relay url_resolve net instances videoId)
       = Some JNull
       \/ snd (getHlsUrlFromInvidious Relay url_resolve net instances videoId)
          = Some (JStr "")))
  \/ exists s,
       s <> ""
       /\ snd (getHlsUrlFromInvidious Relay url_resolve net instances videoId)
          = Some (JStr s)
       /\ snd (getUrl url_resolve net URL_parse host_parse URL_of_value
                 instances videoId)
          = Reply 200 urlHeaders
              (Content (JStr (replaceDomain URL_parse host_parse s TARGET_DOMAIN))).
Proof.
  intros Hid. unfold getUrl.
  destruct videoId as [|c videoId]; [contradiction|].
  cbn [Js.truthy_string negb].
  pose proof (relay_returns_string url_resolve net instances (String c videoId))
    as Hrelay.
  destruct (getHlsUrlFromInvidious Relay url_resolve net instances
              (String c videoId)) as [events result].
  cbn [snd] in Hrelay |- *.
  destruct Hrelay as [-> | (s & ->)].
  - left. split; [reflexivity | now left].
  - destruct s as [|a s].
    + left. split; [reflexivity | now right].
    + right. exists (String a s). repeat split. discriminate.
Qed.

Lemma getUrl_reply_example :
  (snd (getUrl node_url_resolve third_answers WhatwgModel.parse
          WhatwgModel.parseHost (fun _ => None) three_providers "dQw4w9WgXcQ")
   = Reply 404 urlHeaders (Message NoValidUrl)
   /\ (snd (getHlsUrlFromInvidious Relay node_url_resolve third_answers
              three_providers "dQw4w9WgXcQ")
       = Some JNull
       \/ snd (getHlsUrlFromInvidious Relay node_url_resolve third_answers
                 three_providers "dQw4w9WgXcQ")
          = Some (JStr "")))
  \/ exists s,
       s <> ""
       /\ snd (getHlsUrlFromInvidious Relay node_url_resolve third_answers
                 three_providers "dQw4w9WgXcQ")
          = Some (JStr s)
       /\ snd (getUrl node_url_resolve third_answers WhatwgModel.parse
                 WhatwgModel.parseHost (fun _ => None) three_providers
                 "dQw4w9WgXcQ")
          = Reply 200 urlHeaders
              (Content
                 (JStr (replaceDomain WhatwgModel.parse WhatwgModel.parseHost
                          s TARGET_DOMAIN))).
Proof.
  apply (getUrl_reply node_url_resolve third_answers WhatwgModel.parse
           WhatwgModel.parseHost (fun _ => None) three_providers
           "dQw4w9WgXcQ").
  discriminate.
Defined.

(** X15: the two routes of [Relay] agree.  [GET /get/url/:videoid] answers
    200 with the address [u] exactly when [GET /get/:id], for the same
    video id, calls [miniget] once, on [u]; [u] is then a string, and
    [GET /get/:id] answers by the outcome of that download: 200 with the
    downloaded text rewritten against [u], or 500 when the download fails.
    And [GET /get/url/:videoid] answers 404 exactly when [GET /get/:id]
    answers 500 without a download attempted. *)
Theorem relay_routes_agree
    (url_resolve : string -> string -> option string) (net : network)
    (download : downloader) (URL_parse : string -> option Whatwg.URL)
    (host_parse : bool -> string -> option string)
    (URL_of_value : json -> option Whatwg.URL) (instances : list string)
    (videoId : string) (u : json) :
  (snd (getUrl url_resolve net URL_parse host_parse URL_of_value instances
          videoId)
   = Reply 200 urlHeaders (Content u)
   <-> downloads
         (fst (getManifest url_resolve net download URL_parse host_parse
                 URL_of_value instances Relay videoId))
       = [u])
  /\ (snd (getUrl url_resolve net URL_parse host_parse URL_of_value instances
             videoId)
      = Reply 200 urlHeaders (Content u) ->
      exists s,
        u = JStr s
        /\ snd (getManifest url_resolve net download URL_parse host_parse
                  URL_of_value instances Relay videoId)
           = match download u (Some user_agent) with
             | Normal content =>
                 Normal
                   (Reply 200 manifestHeaders
                      (Content (JStr (rewriteHlsManifest url_resolve content s))))
             | Throw _ =>
                 Normal (Reply 500 manifestHeaders (Message ManifestFailed))
             end)
  /\ (snd (getUrl url_resolve net URL_parse host_parse URL_of_value instances
             videoId)
      = Reply 404 urlHeaders (Message NoValidUrl)
      <-> snd (getManifest url_resolve net download URL_parse host_parse
                 URL_of_value instances Relay videoId)
          = Normal (Reply 500 [] (Message ResolutionFailed))).
Proof.
  unfold getUrl, getManifest.
  destruct (Js.truthy_string videoId); cbn [negb fst snd].
  2: { repeat split; discriminate. }
  pose proof (relay_returns_string url_resolve net instances videoId) as Hrelay.
  destruct (getHlsUrlFromInvidious Relay url_resolve net instances videoId)
    as [events result].
  cbn [snd] in Hrelay. destruct Hrelay as [-> | (s & ->)].
  - (* the resolver returned null *)
    cbn [truthy negb fst snd]. rewrite downloads_resolving_only.
    repeat split; discriminate.
  - destruct (truthy (Some (JStr s))); cbn [negb fst snd].
    + cbn [replaceDomainOf]. cbv zeta. unfold template.
      cbn [toStringThrows].
      set (final := replaceDomain URL_parse host_parse s TARGET_DOMAIN).
      destruct (download (JStr final) (Some user_agent)) as [content|e] eqn:Hd;
        cbn [fst snd rewriteHlsManifestOf bind];
        rewrite <- app_assoc, downloads_resolving; cbn [app downloads];
        (split; [|split]);
        try (split; intros H; injection H as <-; reflexivity);
        try (split; discriminate);
        intros H; injection H as <-; exists final;
        (split; [reflexivity|]); now rewrite Hd.
    + rewrite downloads_resolving_only. repeat split; discriminate.
Qed.

(** X16: when no instance gives a stream URL, whatever the way each one
    fails, [GET /get/:id] with a video id answers 500 with the notice of the
    failed resolution, in the three revisions; it sets none of its headers
    and downloads nothing. *)
Theorem getManifest_when_every_instance_fails
    (url_resolve : string -> string -> option string) (net : network)
    (download : downloader) (URL_parse : string -> option Whatwg.URL)
    (host_parse : bool -> string -> option string)
    (URL_of_value : json -> option Whatwg.URL) (instances : list string)
    (rev : revision) (videoId : string) :
  videoId <> "" ->
  (forall j inst,
     nth_error instances j = Some inst ->
     producesUrl (attempt rev url_resolve net j inst videoId) = false) ->
  snd (getManifest url_resolve net download URL_parse host_parse URL_of_value
         instances rev videoId)
  = Normal (Reply 500 [] (Message ResolutionFailed))
  /\ downloads
       (fst (getManifest url_resolve net download URL_parse host_parse
               URL_of_value instances rev videoId))
     = [].
Proof.
  intros Hid Hall. unfold getManifest.
  destruct videoId as [|c videoId]; [contradiction|].
  cbn [Js.truthy_string negb].
  pose proof (resolveFrom_all_fail rev url_resolve net (String c videoId)
                instances 0 Hall) as [Hnull _].
  fold (getHlsUrlFromInvidious rev url_resolve net instances (String c videoId))
    in Hnull.
  destruct (getHlsUrlFromInvidious rev url_resolve net instances
              (String c videoId)) as [events result].
  cbn [snd] in Hnull. subst result. cbn [truthy negb fst snd].
  split; [reflexivity | apply downloads_resolving_only].
Qed.

Lemma getManifest_when_every_instance_fails_example :
  snd (getManifest node_url_resolve all_fail serves_example WhatwgModel.parse
         WhatwgModel.parseHost (fun _ => None) three_providers ServerJs
         "dQw4w9WgXcQ")
  = Normal (Reply 500 [] (Message ResolutionFailed))
  /\ downloads
       (fst (getManifest node_url_resolve all_fail serves_example
               WhatwgModel.parse WhatwgModel.parseHost (fun _ => None)
               three_providers ServerJs "dQw4w9WgXcQ"))
     = [].
Proof.
  apply (getManifest_when_every_instance_fails node_url_resolve all_fail
           serves_example WhatwgModel.parse WhatwgModel.parseHost
           (fun _ => None) three_providers ServerJs "dQw4w9WgXcQ").
  - discriminate.
  - intros [|[|[|j]]] inst H; cbn in H;
      try (injection H as <-; reflexivity).
    destruct j; discriminate.
Defined.

(** ** The three revisions on the same response *)

(** X17: on the same parsed response the three revisions find the same URL
    wherever more than one finds any.  A URL the legacy revision returns is
    returned by [src/server.js]; a string beginning with [http] that
    [src/server.js] returns is returned by [Relay]; and [Relay] returns a
    URL only from a response [src/server.js] returns one from, the same one
    when it begins with [http]. *)
Theorem revisions_agree_on_response
    (url_resolve : string -> string -> option string)
    (instance : string) (videoInfo : json) :
  (forall url,
     extract Legacy url_resolve instance videoInfo = Normal (Some url) ->
     extract ServerJs url_resolve instance videoInfo = Normal (Some url))
  /\ (forall s,
        extract ServerJs url_resolve instance videoInfo
        = Normal (Some (Some (JStr s))) ->
        Js.startsWith s "http" = true ->
        extract Relay url_resolve instance videoInfo
        = Normal (Some (Some (JStr s))))
  /\ (forall url,
        extract Relay url_resolve instance videoInfo = Normal (Some url) ->
        exists s,
          extract ServerJs url_resolve instance videoInfo
          = Normal (Some (Some (JStr s)))
          /\ (Js.startsWith s "http" = true -> url = Some (JStr s))).
Proof.
  rewrite !extract_rawUrl. unfold rawUrl, chooseUrl, absolutize.
  destruct (selectFormats videoInfo) as [formats|e]; cbn [bind];
    [|repeat split; discriminate].
  destruct (findHlsFormat formats) as [hlsFormat|e]; cbn [bind];
    [|repeat split; discriminate].
  split; [|split].
  - intros url. destruct (truthy hlsFormat); [trivial|].
    cbn [bind truthy]. discriminate.
  - intros s.
    destruct (if truthy hlsFormat then get hlsFormat "url"
              else get (Some videoInfo) "hlsUrl") as [hlsUrl|e];
      cbn [bind]; [|discriminate].
    destruct (truthy hlsUrl); cbn [bind]; [|discriminate].
    intros H Hs. injection H as ->. now rewrite Hs.
  - intros url.
    destruct (if truthy hlsFormat then get hlsFormat "url"
              else get (Some videoInfo) "hlsUrl") as [hlsUrl|e];
      cbn [bind]; [|discriminate].
    destruct (truthy hlsUrl); cbn [bind]; [|discriminate].
    destruct hlsUrl as [[| | |s| |]|]; cbn [bind]; try discriminate.
    intros H. exists s. split; [reflexivity|].
    intros Hs. rewrite Hs in H. cbn [negb bind] in H. now injection H as <-.
Qed.
